(** * Settlement and ledger posting of the personal-finance application

    A shallow embedding of [src/app.py]: the five SQLAlchemy models, the
    session operations the views use, the [before_request] hook and the
    views themselves, followed by the properties of the settlement engine.

    Modelling conventions.
    - A table is the list of its rows in insertion order.  Primary keys are
      Python integers ([Z]); a fresh key is one more than the largest key
      in the table (1 in an empty table).
    - A Python [float] is a binary64 value: [PrimFloat.float] with its IEEE
      operations.
    - The store is the default one, [sqlite:///financeiro.db].  It enforces
      no foreign key.  An integer bound to a statement must fit 64 bits
      (OverflowError otherwise).  A NaN is stored as NULL: a nullable
      REAL column then holds NULL, a NOT NULL one rejects the row
      (IntegrityError).  A table whose keys 1, 2, ... have reached the
      largest 64-bit integer takes no further row (OperationalError).
    - What a request reads from outside the program (random identifiers,
      the password hash salt, the current date, the login state) and the
      library functions whose text is not part of the program
      ([str.strip], [check_password_hash]) are explicit inputs, see [env].
    - A view that raises leaves the store as it was: the session is
      discarded without a commit. *)

From Stdlib Require Import Floats List String Ascii ZArith Bool Lia.
Import ListNotations.

Open Scope string_scope.
Open Scope Z_scope.

(** ** Data model *)

Module User.
Record t := mk {
  id : Z;
  username : string;
  password_hash : string
}.
End User.

Module Account.
Record t := mk {
  id : Z;
  uid : string;
  name : string;
  balance : float
}.
End Account.

Module Creditor.
Record t := mk {
  id : Z;
  uid : string;
  name : string;
  ctype : string
}.
End Creditor.

Module Transaction.
Record t := mk {
  id : Z;
  uid : string;
  account_id : Z;
  description : string;
  amount : float;
  tdate : string
}.
End Transaction.

Module PendingItem.
Record t := mk {
  id : Z;
  uid : string;
  kind : string;
  status : string;
  title : string;
  due_date : string;
  amount : float;
  account_id : Z;
  creditor_id : option Z;
  paid_amount : option float;
  diff_interest_or_discount : option float
}.
End PendingItem.

(** The database: one list of rows per model. *)
Record db := mkdb {
  users : list User.t;
  accounts : list Account.t;
  creditors : list Creditor.t;
  transactions : list Transaction.t;
  pending_items : list PendingItem.t
}.

Definition empty_db : db := mkdb [] [] [] [] [].

(** The values a request obtains from outside the program. *)
Record env := mkenv {
  admin_hash : string;   (* generate_password_hash("admin123") *)
  uuid_boot : string;    (* uuid.uuid4().hex drawn by the bootstrap *)
  uuid_view : string;    (* uuid.uuid4().hex drawn by the view *)
  today : string;        (* str(date.today()) *)
  check_password_hash : string -> string -> bool;  (* werkzeug's check *)
  str_strip : string -> string                     (* Python's str.strip *)
}.

(** ** Identifiers *)

Definition upper_ascii (c : ascii) : ascii :=
  let n := nat_of_ascii c in
  if ((97 <=? n) && (n <=? 122))%nat then ascii_of_nat (n - 32) else c.

Fixpoint upper (s : string) : string :=
  match s with
  | EmptyString => EmptyString
  | String c r => String (upper_ascii c) (upper r)
  end.

Definition gen_uid (prefix hex : string) : string :=
  prefix ++ "-" ++ upper (substring 0 10 hex).

Definition next_id (ids : list Z) : Z := 1 + fold_right Z.max 0 ids.

(** ** Forms and exceptions *)

(** A form field after [request.form[...]] and the conversion applied to it. *)
Inductive field (A : Type) : Type :=
| Given (a : A)      (* present, and the conversion succeeded *)
| Missing            (* the key is not in the form *)
| Malformed.         (* float() or int() rejected the text *)
Arguments Given {A} a.
Arguments Missing {A}.
Arguments Malformed {A}.

Inductive exn : Type :=
| BadRequestKeyError   (* request.form[k] on an absent key *)
| ValueError           (* float(...) or int(...) *)
| AttributeError       (* attribute access on None *)
| OverflowError        (* an integer that does not fit 64 bits *)
| IntegrityError       (* NULL, or NaN, for a NOT NULL column *)
| OperationalError.    (* the table has no key left *)

(** A small error monad for the part of a view that reads the form. *)
Definition attempt (A : Type) : Type := (exn + A)%type.
Definition ok {A} (a : A) : attempt A := inr a.
Definition throw {A} (e : exn) : attempt A := inl e.
Definition bind {A B} (m : attempt A) (k : A -> attempt B) : attempt B :=
  match m with
  | inl e => inl e
  | inr a => k a
  end.
Notation "x <- m ;; k" := (bind m (fun x => k))
  (at level 61, m at next level, right associativity).

(** [conv(request.form[k])] *)
Definition required {A} (f : field A) : attempt A :=
  match f with
  | Given a => ok a
  | Missing => throw BadRequestKeyError
  | Malformed => throw ValueError
  end.

(** [request.form.get(k) or None], then [int(v) if v else None] *)
Definition optional {A} (f : field A) : attempt (option A) :=
  match f with
  | Given a => ok (Some a)
  | Missing => ok None
  | Malformed => throw ValueError
  end.

(** ** Session operations *)

(** An INTEGER of the store: a signed 64-bit integer. *)
Definition int64 (i : Z) : bool := (- 2 ^ 63 <=? i) && (i <? 2 ^ 63).

(** What a nullable REAL column keeps of a float: NULL for a NaN. *)
Definition nullable (x : float) : option float :=
  if PrimFloat.is_nan x then None else Some x.

(** [db.session.get(Model, pk)]: the key is bound to the SELECT, then the
    row of that key, if any, is returned. *)
Definition session_get {A : Type} (key : A -> Z) (rows : list A) (pk : Z)
    : attempt (option A) :=
  if int64 pk then ok (find (fun r => key r =? pk) rows)
  else throw OverflowError.

Definition load_user (s : db) (user_id : Z) : attempt (option User.t) :=
  session_get User.id (users s) user_id.

Definition get_account (s : db) (i : Z) : attempt (option Account.t) :=
  session_get Account.id (accounts s) i.

Definition get_pending (s : db) (i : Z) : attempt (option PendingItem.t) :=
  session_get PendingItem.id (pending_items s) i.

(** The key the next INSERT into a table receives, if there is one left. *)
Definition fresh_key (ids : list Z) : attempt Z :=
  if int64 (next_id ids) then ok (next_id ids) else throw OperationalError.

(** [User.query.filter_by(username=n).first()] *)
Definition user_by_name (s : db) (n : string) : option User.t :=
  find (fun u => String.eqb (User.username u) n) (users s).

(** [db.session.add(Model(...))] followed by the commit: the row receives
    its primary key and goes to the end of its table. *)
Definition add_user (s : db) (username hash : string) : db :=
  mkdb (users s ++ [User.mk (next_id (map User.id (users s))) username hash])
       (accounts s) (creditors s) (transactions s) (pending_items s).

Definition add_account (s : db) (hex name : string) (balance : float) : db :=
  mkdb (users s)
       (accounts s ++ [Account.mk (next_id (map Account.id (accounts s)))
                                  (gen_uid "ACC" hex) name balance])
       (creditors s) (transactions s) (pending_items s).

Definition add_creditor (s : db) (hex name ctype : string) : db :=
  mkdb (users s) (accounts s)
       (creditors s ++ [Creditor.mk (next_id (map Creditor.id (creditors s)))
                                    (gen_uid "CRD" hex) name ctype])
       (transactions s) (pending_items s).

Definition add_transaction (s : db) (hex : string) (account_id : Z)
    (description : string) (amount : float) (tdate : string) : db :=
  mkdb (users s) (accounts s) (creditors s)
       (transactions s ++
          [Transaction.mk (next_id (map Transaction.id (transactions s)))
                          (gen_uid "TRX" hex) account_id description amount tdate])
       (pending_items s).

Definition add_pending (s : db) (hex title due_date : string) (amount : float)
    (kind : string) (account_id : Z) (creditor_id : option Z) : db :=
  mkdb (users s) (accounts s) (creditors s) (transactions s)
       (pending_items s ++
          [PendingItem.mk (next_id (map PendingItem.id (pending_items s)))
                          (gen_uid "PEN" hex) kind "ABERTO" title due_date amount
                          account_id creditor_id None None]).

(** The UPDATE the commit issues for a modified object: the changed columns
    are written to the row of that primary key. *)
Definition update_balance (s : db) (i : Z) (b : float) : db :=
  mkdb (users s)
       (map (fun a => if Account.id a =? i
                      then Account.mk (Account.id a) (Account.uid a) (Account.name a) b
                      else a) (accounts s))
       (creditors s) (transactions s) (pending_items s).

Definition update_settlement (s : db) (i : Z) (paid diff : float) (st : string) : db :=
  mkdb (users s) (accounts s) (creditors s) (transactions s)
       (map (fun p => if PendingItem.id p =? i
                      then PendingItem.mk (PendingItem.id p) (PendingItem.uid p)
                             (PendingItem.kind p) st (PendingItem.title p)
                             (PendingItem.due_date p) (PendingItem.amount p)
                             (PendingItem.account_id p) (PendingItem.creditor_id p)
                             (nullable paid) (nullable diff)
                      else p) (pending_items s)).

(** ** Requests and responses *)

Record kpis := mkkpis {
  saldo_total : float;
  pendencias_abertas : nat;
  credores : nat
}.

Inductive response : Type :=
| Redirect (endpoint : string)
| Dashboard (k : kpis) (ultimas : list Transaction.t)
| Page (template : string)
| Raised (e : exn).

(** What a view leaves behind: its response, the messages it flashed and
    the committed store. *)
Record result := mkresult {
  reply : response;
  flashed : list string;
  store : db
}.

Definition unchanged (r : response) (s : db) : result := mkresult r [] s.

(** ** Builtins the views call *)

(** [sum(xs)]: accumulation from 0, left to right.  (From CPython 3.12 on
    the builtin compensates the rounding error of float addends, which can
    change the last bits of the result, not the addends that enter it.) *)
Definition py_sum (xs : list float) : float :=
  fold_left PrimFloat.add xs 0%float.

(** What [str.strip()] does to ASCII text; the sample run uses it. *)
Definition is_space (c : ascii) : bool :=
  let n := nat_of_ascii c in
  (((9 <=? n) && (n <=? 13)) || ((28 <=? n) && (n <=? 32)))%nat.

Fixpoint lstrip (s : string) : string :=
  match s with
  | EmptyString => EmptyString
  | String c r => if is_space c then lstrip r else s
  end.

Fixpoint rstrip (s : string) : string :=
  match s with
  | EmptyString => EmptyString
  | String c r =>
      match rstrip r with
      | EmptyString => if is_space c then EmptyString else String c EmptyString
      | r' => String c r'
      end
  end.

Definition ascii_strip (s : string) : string := rstrip (lstrip s).

(** [order_by(Transaction.id.desc())] *)
Fixpoint insert_desc (t : Transaction.t) (l : list Transaction.t) : list Transaction.t :=
  match l with
  | [] => [t]
  | x :: r => if Transaction.id x <=? Transaction.id t
              then t :: l
              else x :: insert_desc t r
  end.

Definition order_by_id_desc (l : list Transaction.t) : list Transaction.t :=
  fold_right insert_desc [] l.

(** ** Bootstrap and the before-request hook *)

Definition bootstrap_defaults (e : env) (s : db) : db :=
  let s1 := match user_by_name s "admin" with
            | Some _ => s
            | None => add_user s "admin" (admin_hash e)
            end in
  if (List.length (accounts s1) =? 0)%nat
  then add_account s1 (uuid_boot e) "Conta Principal" 0%float
  else s1.

(** [db.create_all()] creates the tables that are missing and touches no
    row, so on the rows it is the identity. *)
Definition ensure_db (e : env) (s : db) : db := bootstrap_defaults e s.

(** ** Views *)

(** [@login_required]: an anonymous caller is sent to the login view and
    the body does not run. *)
Definition login_required (auth : bool) (s : db) (body : result) : result :=
  if auth then body
  else mkresult (Redirect "login") ["Please log in to access this page."] s.

Definition login_get (auth : bool) (s : db) : result :=
  if auth then unchanged (Redirect "dashboard") s
  else unchanged (Page "login.html") s.

Definition login_post (e : env) (auth : bool) (s : db)
    (username password : field string) : result :=
  if auth then unchanged (Redirect "dashboard") s
  else
    match (u <- required username ;; p <- required password ;;
           ok (str_strip e u, p)) with
    | inl ex => unchanged (Raised ex) s
    | inr (u, p) =>
        match user_by_name s u with
        | None => mkresult (Redirect "login") ["Usuário ou senha inválidos."] s
        | Some user =>
            if check_password_hash e (User.password_hash user) p
            then unchanged (Redirect "dashboard") s
            else mkresult (Redirect "login") ["Usuário ou senha inválidos."] s
        end
    end.

Definition logout (s : db) : result := unchanged (Redirect "login") s.

Definition is_open (p : PendingItem.t) : bool :=
  negb (String.eqb (PendingItem.status p) "PAGO").

Definition dashboard (s : db) : result :=
  let contas := accounts s in
  let saldo_total := py_sum (map Account.balance contas) in
  let pend_abertas := List.length (filter is_open (pending_items s)) in
  let credores := List.length (creditors s) in
  let ultimas := firstn 10 (order_by_id_desc (transactions s)) in
  unchanged (Dashboard (mkkpis saldo_total pend_abertas credores) ultimas) s.

Record pendencia_form := mkform {
  f_title : field string;
  f_due_date : field string;
  f_amount : field float;
  f_kind : field string;
  f_account_id : field Z;
  f_creditor_id : field Z
}.

Definition pendencias_create (e : env) (s : db) (f : pendencia_form) : result :=
  match (title <- required (f_title f) ;;
         due_date <- required (f_due_date f) ;;
         amount <- required (f_amount f) ;;
         kind <- required (f_kind f) ;;
         account_id <- required (f_account_id f) ;;
         creditor_id <- optional (f_creditor_id f) ;;
         ok (str_strip e title, due_date, amount, kind, account_id, creditor_id)) with
  | inl ex => unchanged (Raised ex) s
  | inr (title, due_date, amount, kind, account_id, creditor_id) =>
      (* the INSERT of the commit: its integers are bound, the row gets
         its key, the NOT NULL columns are checked *)
      if negb (int64 account_id &&
               match creditor_id with Some c => int64 c | None => true end)
      then unchanged (Raised OverflowError) s
      else
        match fresh_key (map PendingItem.id (pending_items s)) with
        | inl ex => unchanged (Raised ex) s
        | inr _ =>
            if PrimFloat.is_nan amount
            then unchanged (Raised IntegrityError) s
            else unchanged (Redirect "pendencias")
                   (add_pending s (uuid_view e) title due_date amount kind
                      account_id creditor_id)
        end
  end.

(** The signed movement of a settlement. *)
Definition trx_amount (kind : string) (paid_amount : float) : float :=
  if String.eqb kind "PAGAR" || String.eqb kind "EMPRESTIMO"
  then PrimFloat.opp (PrimFloat.abs paid_amount)
  else PrimFloat.abs paid_amount.

Definition pendencias_pay (e : env) (s : db) (pending_id : Z)
    (paid_amount : field float) : result :=
  match get_pending s pending_id with
  | inl ex => unchanged (Raised ex) s
  | inr None => unchanged (Redirect "pendencias") s
  | inr (Some p) =>
      if String.eqb (PendingItem.status p) "PAGO"
      then unchanged (Redirect "pendencias") s
      else
        match required paid_amount with
        | inl ex => unchanged (Raised ex) s
        | inr paid =>
            let diff := PrimFloat.sub paid (PendingItem.amount p) in
            match get_account s (PendingItem.account_id p) with
            | inl ex => unchanged (Raised ex) s
            | inr None => unchanged (Raised AttributeError) s
            | inr (Some acc) =>
                let amt := trx_amount (PendingItem.kind p) paid in
                let balance := PrimFloat.add (Account.balance acc) amt in
                (* the commit: the UPDATE of the account, the UPDATE of the
                   obligation, the INSERT of the transaction *)
                if PrimFloat.is_nan balance || PrimFloat.is_nan amt
                then unchanged (Raised IntegrityError) s
                else
                  match fresh_key (map Transaction.id (transactions s)) with
                  | inl ex => unchanged (Raised ex) s
                  | inr _ =>
                      let s1 := update_settlement s (PendingItem.id p) paid diff
                                  "PAGO" in
                      let s2 := update_balance s1 (Account.id acc) balance in
                      let s3 := add_transaction s2 (uuid_view e) (Account.id acc)
                                  ("[" ++ PendingItem.kind p ++ "] " ++
                                   PendingItem.title p)
                                  amt (today e) in
                      unchanged (Redirect "pendencias") s3
                  end
            end
        end
  end.

Definition contas_create (e : env) (s : db) (name : field string)
    (opening_balance : field float) : result :=
  match (n <- required name ;; b <- required opening_balance ;;
         ok (str_strip e n, b)) with
  | inl ex => unchanged (Raised ex) s
  | inr (n, b) =>
      match fresh_key (map Account.id (accounts s)) with
      | inl ex => unchanged (Raised ex) s
      | inr _ =>
          if PrimFloat.is_nan b
          then unchanged (Raised IntegrityError) s
          else unchanged (Redirect "contas") (add_account s (uuid_view e) n b)
      end
  end.

Definition credores_create (e : env) (s : db) (name ctype : field string) : result :=
  match (n <- required name ;; c <- required ctype ;; ok (str_strip e n, c)) with
  | inl ex => unchanged (Raised ex) s
  | inr (n, c) =>
      match fresh_key (map Creditor.id (creditors s)) with
      | inl ex => unchanged (Raised ex) s
      | inr _ => unchanged (Redirect "credores") (add_creditor s (uuid_view e) n c)
      end
  end.

(** ** The application *)

Inductive request : Type :=
| GetLogin
| PostLogin (username password : field string)
| GetLogout
| GetDashboard
| GetPendencias
| PostPendenciasCreate (f : pendencia_form)
| PostPendenciasPay (pending_id : Z) (paid_amount : field float)
| GetContas
| PostContasCreate (name : field string) (opening_balance : field float)
| GetCredores
| PostCredoresCreate (name ctype : field string)
| GetCartoes
| GetVeiculos
| GetDocumentos
| GetRelatorios.

(** The listing views and the placeholder pages only read; their template
    context is not part of the model. *)
Definition dispatch (e : env) (auth : bool) (r : request) (s : db) : result :=
  match r with
  | GetLogin => login_get auth s
  | PostLogin u p => login_post e auth s u p
  | GetLogout => login_required auth s (logout s)
  | GetDashboard => login_required auth s (dashboard s)
  | GetPendencias => login_required auth s (unchanged (Page "pendencias.html") s)
  | PostPendenciasCreate f => login_required auth s (pendencias_create e s f)
  | PostPendenciasPay i a => login_required auth s (pendencias_pay e s i a)
  | GetContas => login_required auth s (unchanged (Page "contas.html") s)
  | PostContasCreate n b => login_required auth s (contas_create e s n b)
  | GetCredores => login_required auth s (unchanged (Page "credores.html") s)
  | PostCredoresCreate n c => login_required auth s (credores_create e s n c)
  | GetCartoes => login_required auth s (unchanged (Page "cartoes.html") s)
  | GetVeiculos => login_required auth s (unchanged (Page "veiculos.html") s)
  | GetDocumentos => login_required auth s (unchanged (Page "documentos.html") s)
  | GetRelatorios => login_required auth s (unchanged (Page "relatorios.html") s)
  end.

(** One request: the before-request hook, then the view. *)
Definition handle (e : env) (auth : bool) (r : request) (s : db) : result :=
  dispatch e auth r (ensure_db e s).

(** ** Reachable states

    The store starts empty and changes only through requests.  Next to the
    store, the opening balance of each account is recorded in creation
    order: 0.0 for the account the bootstrap creates, the submitted
    [opening_balance] for one created through [/contas/create] (none when
    the store refuses the row). *)

Definition opened (e : env) (auth : bool) (r : request) (s : db) : list float :=
  (match accounts s with [] => [0%float] | _ :: _ => [] end) ++
  (match auth, r with
   | true, PostContasCreate (Given _) (Given b) =>
       if int64 (next_id (map Account.id (accounts (ensure_db e s)))) &&
          negb (PrimFloat.is_nan b)
       then [b] else []
   | _, _ => []
   end).

Inductive reachable : list float -> db -> Prop :=
| reach_empty : reachable [] empty_db
| reach_request (og : list float) (s : db) (e : env) (auth : bool) (r : request) :
    reachable og s ->
    reachable (og ++ opened e auth r s)%list (store (handle e auth r s)).

(** The amounts posted against an account, in posting order. *)
Definition posted (ts : list Transaction.t) (account : Z) : list float :=
  map Transaction.amount
      (filter (fun t => Transaction.account_id t =? account) ts).

(** What the spec calls an error: the view raised, or it flashed a message. *)
Definition reports_error (r : result) : Prop :=
  (exists ex, reply r = Raised ex) \/ flashed r <> [].

(** The row a settlement leaves in place of obligation [p]. *)
Definition settled (p : PendingItem.t) (paid : float) : PendingItem.t :=
  PendingItem.mk (PendingItem.id p) (PendingItem.uid p) (PendingItem.kind p) "PAGO"
    (PendingItem.title p) (PendingItem.due_date p) (PendingItem.amount p)
    (PendingItem.account_id p) (PendingItem.creditor_id p)
    (nullable paid) (nullable (PrimFloat.sub paid (PendingItem.amount p))).

(** The store a settlement of [p] against [acc] commits. *)
Definition settle_store (e : env) (s : db) (p : PendingItem.t) (acc : Account.t)
    (paid : float) : db :=
  let amt := trx_amount (PendingItem.kind p) paid in
  add_transaction
    (update_balance
       (update_settlement s (PendingItem.id p) paid
          (PrimFloat.sub paid (PendingItem.amount p)) "PAGO")
       (Account.id acc) (PrimFloat.add (Account.balance acc) amt))
    (uuid_view e) (Account.id acc)
    ("[" ++ PendingItem.kind p ++ "] " ++ PendingItem.title p) amt (today e).

(** The balance an account opened with [o] reaches through the postings of
    the log [ts], added one after the other as the settlements did. *)
Definition balance_from (o : float) (ts : list Transaction.t) (account : Z) : float :=
  fold_left PrimFloat.add (posted ts account) o.

(** The ledger invariant: primary keys of accounts are distinct, every
    transaction belongs to an account of the store, and each balance is its
    opening balance followed by its postings. *)
Record ledger_ok (og : list float) (s : db) : Prop := mkledger {
  accounts_nodup : NoDup (map Account.id (accounts s));
  postings_owned :
    Forall (fun t => In (Transaction.account_id t) (map Account.id (accounts s)))
           (transactions s);
  balances_ok :
    Forall2 (fun a o => Account.balance a =
                        balance_from o (transactions s) (Account.id a))
            (accounts s) og
}.


(** The store [s] with the kind of obligation [pid] replaced by [k]. *)
Definition with_kind (k : string) (pid : Z) (s : db) : db :=
  mkdb (users s) (accounts s) (creditors s) (transactions s)
       (map (fun p => if PendingItem.id p =? pid
                      then PendingItem.mk (PendingItem.id p) (PendingItem.uid p) k
                             (PendingItem.status p) (PendingItem.title p)
                             (PendingItem.due_date p) (PendingItem.amount p)
                             (PendingItem.account_id p) (PendingItem.creditor_id p)
                             (PendingItem.paid_amount p)
                             (PendingItem.diff_interest_or_discount p)
                      else p) (pending_items s)).

(** The state the bootstrap aims at: the admin user and some account exist. *)
Definition bootstrapped (s : db) : Prop :=
  user_by_name s "admin" <> None /\ accounts s <> [].

(** The two dashboard figures as the spec words them: the balances of all
    accounts added up in account order, and the number of obligations
    whose status is not PAGO. *)
Fixpoint sum_balances (acc : float) (l : list Account.t) : float :=
  match l with
  | [] => acc
  | a :: r => sum_balances (PrimFloat.add acc (Account.balance a)) r
  end.

Fixpoint count_not_settled (l : list PendingItem.t) : nat :=
  match l with
  | [] => 0%nat
  | p :: r =>
      if string_dec (PendingItem.status p) "PAGO"
      then count_not_settled r
      else S (count_not_settled r)
  end.



Definition form_dangling_account : pendencia_form :=
  mkform (Given "Luz") (Given "2026-02-01") (Given 10%float) (Given "PAGAR")
         (Given 999) Missing.

(** ** A sample run

    A fresh database; an account opened with 100.0; a bill of 100.0 and a
    donation of 50.0 registered against it; the bill settled with 120.0. *)

Definition demo_env : env :=
  mkenv "scrypt:32768:8:1$salt$digest" "0123456789abcdef0123456789abcdef"
        "fedcba9876543210fedcba9876543210" "2026-01-15" (fun _ _ => true)
        ascii_strip.

Definition open_savings : request :=
  PostContasCreate (Given " Poupanca ") (Given 100%float).

Definition register_bill : request :=
  PostPendenciasCreate
    (mkform (Given "Luz") (Given "2026-02-01") (Given 100%float) (Given "PAGAR")
            (Given 2) Missing).

Definition register_donation : request :=
  PostPendenciasCreate
    (mkform (Given "Rifa") (Given "2026-03-01") (Given 50%float) (Given "DOACAO")
            (Given 2) Missing).

Definition demo_opened : db := store (handle demo_env true open_savings empty_db).
Definition demo_bill : db := store (handle demo_env true register_bill demo_opened).
Definition demo_pending : db := store (handle demo_env true register_donation demo_bill).
Definition demo_settled : db :=
  store (handle demo_env true (PostPendenciasPay 1 (Given 120%float)) demo_pending).

Definition demo_savings : Account.t :=
  Account.mk 2 "ACC-FEDCBA9876" "Poupanca" 100%float.

Definition demo_bill_item : PendingItem.t :=
  PendingItem.mk 1 "PEN-FEDCBA9876" "PAGAR" "ABERTO" "Luz" "2026-02-01" 100%float
                 2 None None None.

Definition demo_donation_item : PendingItem.t :=
  PendingItem.mk 2 "PEN-FEDCBA9876" "DOACAO" "ABERTO" "Rifa" "2026-03-01" 50%float
                 2 None None None.

(** Obligations the store accepts although they cannot be settled as the
    spec expects: two against an account that does not exist, one of an
    infinite amount. *)
Definition form_dangling_donation : pendencia_form :=
  mkform (Given "Rifa") (Given "2026-03-01") (Given 50%float) (Given "DOACAO")
         (Given 999) Missing.

Definition form_unbounded : pendencia_form :=
  mkform (Given "Divida") (Given "2026-05-01") (Given infinity) (Given "PAGAR")
         (Given 2) Missing.

Definition demo_dangling : db :=
  store (handle demo_env true (PostPendenciasCreate form_dangling_donation)
           (store (handle demo_env true (PostPendenciasCreate form_dangling_account)
                     demo_opened))).

Definition demo_unbounded : db :=
  store (handle demo_env true (PostPendenciasCreate form_unbounded) demo_opened).

(** ** Vocabulary of the further properties *)

(** Primary keys handed out one after the other, 1, 2, ..., n, all of
    them 64-bit integers. *)
Definition keys_in_sequence (ids : list Z) : Prop :=
  ids = map Z.of_nat (seq 1 (List.length ids)) /\
  Z.of_nat (List.length ids) < 2 ^ 63.

Record keys_ok (s : db) : Prop := mkkeys {
  user_keys : users s = [] \/ exists hash, users s = [User.mk 1 "admin" hash];
  account_keys : keys_in_sequence (map Account.id (accounts s));
  creditor_keys : keys_in_sequence (map Creditor.id (creditors s));
  transaction_keys : keys_in_sequence (map Transaction.id (transactions s));
  pending_keys : keys_in_sequence (map PendingItem.id (pending_items s))
}.

(** A sequence of requests, each with the values it draws and the login
    state of its caller. *)
Definition call : Type := (env * bool * request)%type.

Fixpoint run (calls : list call) (s : db) : db :=
  match calls with
  | [] => s
  | (e, auth, r) :: rest => run rest (store (handle e auth r s))
  end.

(** The columns of an account that identify it. *)
Definition account_identity (a : Account.t) : Z * string * string :=
  (Account.id a, Account.uid a, Account.name a).

Definition is_settled (p : PendingItem.t) : bool :=
  String.eqb (PendingItem.status p) "PAGO".


(** The balance the store holds for the account of a key, if any. *)
Definition balance_of (s : db) (i : Z) : option float :=
  match get_account s i with
  | inr (Some a) => Some (Account.balance a)
  | _ => None
  end.

(** * Properties *)

(** ** The sample run *)

Example gen_uid_example :
  gen_uid "TRX" "fedcba9876543210fedcba9876543210" = "TRX-FEDCBA9876".
Proof. reflexivity. Qed.

Example strip_example : ascii_strip "  Conta  nova " = "Conta  nova".
Proof. reflexivity. Qed.

Example demo_pending_rows :
  get_pending demo_pending 1 = ok (Some demo_bill_item) /\
  get_pending demo_pending 2 = ok (Some demo_donation_item) /\
  get_account demo_pending 2 = ok (Some demo_savings).
Proof. repeat split. Qed.

(** A bill of 100.0 paid with 120.0: a posting of -120.0, a difference of
    20.0, and the balance 100.0 becomes -20.0. *)
Example demo_settled_rows :
  map Transaction.amount (transactions demo_settled) = [(-120)%float] /\
  get_pending demo_settled 1 = ok (Some (settled demo_bill_item 120%float)) /\
  PendingItem.diff_interest_or_discount (settled demo_bill_item 120%float) =
    Some 20%float /\
  balance_of demo_settled 2 = Some (-20)%float.
Proof. repeat split. Qed.

(** A receivable of 50.0 received in full: a posting of +50.0, a difference
    of 0.0, and the balance grows by 50.0. *)
Example receivable_example :
  let s := store (pendencias_pay demo_env (with_kind "RECEBER" 2 demo_settled) 2
                    (Given 50%float)) in
  map Transaction.amount (transactions s) = [(-120)%float; 50%float] /\
  (exists p, get_pending s 2 = ok (Some p) /\
             PendingItem.diff_interest_or_discount p = Some 0%float) /\
  balance_of s 2 = Some 30%float.
Proof. split; [reflexivity|]. split; [|reflexivity]. eexists. split; reflexivity. Qed.

(** An obligation whose account does not resolve cannot be settled: the
    view raises and the store stays as it was. *)
Example dangling_account_example :
  let s := store (pendencias_create demo_env demo_opened form_dangling_account) in
  pendencias_pay demo_env s 1 (Given 10%float) = unchanged (Raised AttributeError) s.
Proof. reflexivity. Qed.

Example dashboard_example :
  reply (dashboard demo_pending) =
  Dashboard (mkkpis 100%float 2 0) [].
Proof. reflexivity. Qed.

(** What the store refuses: a key beyond 64 bits, a NaN for a NOT NULL
    column; a NaN difference is kept as NULL. *)
Example store_refusals :
  reply (pendencias_pay demo_env demo_pending (2 ^ 63) (Given 10%float)) =
    Raised OverflowError /\
  reply (pendencias_pay demo_env demo_pending 1 (Given nan)) =
    Raised IntegrityError /\
  reply (contas_create demo_env demo_pending (Given "X") (Given nan)) =
    Raised IntegrityError /\
  nullable (PrimFloat.sub infinity infinity) = None.
Proof. repeat split. Qed.

(** ** Lookups *)

Section Lookup.
Context {A : Type} (key : A -> Z).

Lemma find_key_some (i : Z) (l : list A) (x : A) :
  find (fun y => key y =? i) l = Some x -> In x l /\ key x = i.
Proof.
  intros H. apply find_some in H. destruct H as [Hin Hk].
  split; [assumption | now apply Z.eqb_eq].
Qed.

Lemma find_key_map (f : A -> A) (i : Z) (l : list A) :
  (forall x, key (f x) = key x) ->
  find (fun y => key y =? i) (map f l) = option_map f (find (fun y => key y =? i) l).
Proof.
  intros Hf. induction l as [|x l IH]; simpl; [reflexivity|].
  rewrite Hf. destruct (key x =? i); [reflexivity | exact IH].
Qed.

Lemma find_key_unique (i : Z) (l : list A) (x y : A) :
  NoDup (map key l) -> In x l -> key x = i ->
  find (fun z => key z =? i) l = Some y -> x = y.
Proof.
  intros Hnd Hin Hk Hf. induction l as [|z l IH]; simpl in *; [contradiction|].
  inversion Hnd as [|? ? Hnotin Hnd']; subst.
  destruct (key z =? key x) eqn:Ez.
  - injection Hf as <-. destruct Hin as [->|Hin]; [reflexivity|].
    exfalso. apply Hnotin. apply Z.eqb_eq in Ez. rewrite Ez.
    now apply in_map.
  - destruct Hin as [->|Hin]; [rewrite Z.eqb_refl in Ez; discriminate|].
    now apply IH.
Qed.

Lemma next_id_above (l : list A) (x : A) :
  In x l -> key x < next_id (map key l).
Proof.
  unfold next_id. induction l as [|y l IH]; cbn [map fold_right In]; [contradiction|].
  intros [->|Hin]; [lia|]. specialize (IH Hin). lia.
Qed.

Lemma next_id_fresh (l : list A) :
  ~ In (next_id (map key l)) (map key l).
Proof.
  intros Hin. apply in_map_iff in Hin. destruct Hin as [x [Hx Hin]].
  apply next_id_above in Hin. lia.
Qed.
End Lookup.

Lemma session_get_found {A : Type} (key : A -> Z) (rows : list A) (pk : Z) (x : A) :
  session_get key rows pk = ok (Some x) ->
  int64 pk = true /\ find (fun r => key r =? pk) rows = Some x.
Proof.
  unfold session_get. destruct (int64 pk); [|discriminate].
  intros H. injection H as H. now split.
Qed.

Lemma session_get_bound {A : Type} (key : A -> Z) (rows : list A) (pk : Z) :
  int64 pk = true ->
  session_get key rows pk = ok (find (fun r => key r =? pk) rows).
Proof. unfold session_get. now intros ->. Qed.

Lemma session_get_row {A : Type} (key : A -> Z) (rows : list A) (pk : Z) (x : A) :
  session_get key rows pk = ok (Some x) -> In x rows /\ key x = pk.
Proof.
  intros H. apply session_get_found in H. destruct H as [_ H].
  now apply find_key_some in H.
Qed.

Lemma session_get_map {A : Type} (key : A -> Z) (f : A -> A) (rows : list A)
    (pk : Z) (x : A) :
  (forall r, key (f r) = key r) ->
  session_get key rows pk = ok (Some x) ->
  session_get key (map f rows) pk = ok (Some (f x)).
Proof.
  intros Hf H. apply session_get_found in H. destruct H as [Hpk H].
  rewrite (session_get_bound _ _ _ Hpk), (find_key_map key f pk rows Hf).
  now rewrite H.
Qed.

Lemma session_get_app {A : Type} (key : A -> Z) (rows new : list A) (pk : Z) (x : A) :
  session_get key rows pk = ok (Some x) ->
  session_get key (rows ++ new) pk = ok (Some x).
Proof.
  intros H. apply session_get_found in H. destruct H as [Hpk H].
  rewrite (session_get_bound _ _ _ Hpk). f_equal.
  revert H. induction rows as [|y rows IH]; simpl; [discriminate|].
  now destruct (key y =? pk).
Qed.


Lemma get_pending_id (s : db) (i : Z) (p : PendingItem.t) :
  get_pending s i = ok (Some p) -> PendingItem.id p = i.
Proof. intros H. apply (session_get_row PendingItem.id) in H. tauto. Qed.

(** ** Not-a-number *)

Lemma is_nan_spec (x : float) :
  PrimFloat.is_nan x = match Prim2SF x with S754_nan => true | _ => false end.
Proof.
  unfold PrimFloat.is_nan. rewrite FloatAxioms.eqb_spec. unfold SFeqb, SFcompare.
  destruct (Prim2SF x) as [s|s| |s m e]; try destruct s; try reflexivity;
    rewrite Z.compare_refl, Pos.compare_cont_refl; reflexivity.
Qed.

Lemma is_nan_abs (x : float) : PrimFloat.is_nan (PrimFloat.abs x) = PrimFloat.is_nan x.
Proof. rewrite !is_nan_spec, abs_spec. now destruct (Prim2SF x). Qed.

Lemma is_nan_opp (x : float) : PrimFloat.is_nan (PrimFloat.opp x) = PrimFloat.is_nan x.
Proof. rewrite !is_nan_spec, opp_spec. now destruct (Prim2SF x). Qed.

Lemma is_nan_trx_amount (kind : string) (paid : float) :
  PrimFloat.is_nan (trx_amount kind paid) = PrimFloat.is_nan paid.
Proof.
  unfold trx_amount. destruct (String.eqb kind "PAGAR" || String.eqb kind "EMPRESTIMO").
  - now rewrite is_nan_opp, is_nan_abs.
  - apply is_nan_abs.
Qed.



Lemma is_open_status (p : PendingItem.t) :
  is_open p = true -> String.eqb (PendingItem.status p) "PAGO" = false.
Proof. unfold is_open. now destruct (String.eqb _ _). Qed.

(** ** The settlement, step by step *)








Lemma trx_amount_debit (kind : string) (paid : float) :
  kind = "PAGAR" \/ kind = "EMPRESTIMO" ->
  trx_amount kind paid = PrimFloat.opp (PrimFloat.abs paid).
Proof. intros [-> | ->]; reflexivity. Qed.

Lemma trx_amount_credit (kind : string) (paid : float) :
  kind <> "PAGAR" -> kind <> "EMPRESTIMO" ->
  trx_amount kind paid = PrimFloat.abs paid.
Proof.
  intros H1 H2. unfold trx_amount.
  destruct (String.eqb_spec kind "PAGAR"); [contradiction|].
  destruct (String.eqb_spec kind "EMPRESTIMO"); [contradiction|].
  reflexivity.
Qed.

(** ** The ledger invariant *)

Lemma posted_snoc (ts : list Transaction.t) (t : Transaction.t) (i : Z) :
  posted (ts ++ [t]) i =
  (posted ts i ++ (if Transaction.account_id t =? i then [Transaction.amount t] else []))%list.
Proof.
  unfold posted. rewrite filter_app, map_app. simpl.
  now destruct (Transaction.account_id t =? i).
Qed.

Lemma posted_unowned (ids : list Z) (ts : list Transaction.t) (i : Z) :
  Forall (fun t => In (Transaction.account_id t) ids) ts ->
  ~ In i ids -> posted ts i = [].
Proof.
  intros Hall Hi. unfold posted. induction Hall as [|t ts Ht _ IH]; [reflexivity|].
  simpl. destruct (Transaction.account_id t =? i) eqn:E; [|exact IH].
  apply Z.eqb_eq in E. subst i. contradiction.
Qed.

Lemma Forall2_map_left {A B : Type} (P Q : A -> B -> Prop) (f : A -> A)
    (l : list A) (l' : list B) :
  (forall a b, In a l -> P a b -> Q (f a) b) ->
  Forall2 P l l' -> Forall2 Q (map f l) l'.
Proof.
  intros Hf H. induction H as [|a b l l' Hab _ IH]; simpl; constructor.
  - apply Hf; [now left | assumption].
  - apply IH. intros a' b' Hin. apply Hf. now right.
Qed.

Lemma ledger_add_user (og : list float) (s : db) (u h : string) :
  ledger_ok og s -> ledger_ok og (add_user s u h).
Proof. intros [H1 H2 H3]. now constructor. Qed.

Lemma ledger_add_creditor (og : list float) (s : db) (x n c : string) :
  ledger_ok og s -> ledger_ok og (add_creditor s x n c).
Proof. intros [H1 H2 H3]. now constructor. Qed.

Lemma ledger_add_pending (og : list float) (s : db) (x t d : string) (a : float)
    (k : string) (i : Z) (c : option Z) :
  ledger_ok og s -> ledger_ok og (add_pending s x t d a k i c).
Proof. intros [H1 H2 H3]. now constructor. Qed.

Lemma ledger_add_account (og : list float) (s : db) (x n : string) (b : float) :
  ledger_ok og s -> ledger_ok (og ++ [b]) (add_account s x n b).
Proof.
  intros [Hnd Hown Hbal].
  pose proof (next_id_fresh Account.id (accounts s)) as Hfresh.
  constructor; simpl.
  - rewrite map_app. apply NoDup_app; [assumption | repeat constructor; intros [] |].
    simpl. intros a Ha [<- | []]. contradiction.
  - eapply Forall_impl; [|exact Hown]. simpl. intros t Ht.
    rewrite map_app. apply in_or_app. now left.
  - apply Forall2_app; [assumption|]. repeat constructor. simpl.
    unfold balance_from. now rewrite (posted_unowned _ _ _ Hown Hfresh).
Qed.

Lemma ledger_settle (og : list float) (e : env) (s : db) (p : PendingItem.t)
    (acc : Account.t) (paid : float) :
  get_account s (PendingItem.account_id p) = ok (Some acc) ->
  ledger_ok og s -> ledger_ok og (settle_store e s p acc paid).
Proof.
  intros Hacc [Hnd Hown Hbal].
  apply (session_get_found Account.id) in Hacc. destruct Hacc as [_ Hacc].
  apply (find_key_some Account.id) in Hacc as Hin. destruct Hin as [Hin Hid].
  assert (Hids : forall f : float,
             map Account.id
               (map (fun a => if Account.id a =? Account.id acc
                              then Account.mk (Account.id a) (Account.uid a)
                                     (Account.name a) f
                              else a) (accounts s)) = map Account.id (accounts s)).
  { intros f. rewrite map_map. apply map_ext. intros a.
    now destruct (Account.id a =? Account.id acc). }
  constructor; unfold settle_store; simpl.
  - now rewrite Hids.
  - rewrite Hids. apply Forall_app. split; [assumption|].
    repeat constructor. simpl. now apply in_map.
  - eapply Forall2_map_left; [|exact Hbal]. simpl.
    intros a o Ha Hao. unfold balance_from. rewrite posted_snoc. simpl.
    destruct (Account.id a =? Account.id acc) eqn:E; simpl.
    + apply Z.eqb_eq in E. rewrite Z.eqb_sym, (proj2 (Z.eqb_eq _ _) E).
      rewrite fold_left_app. simpl. fold (balance_from o (transactions s) (Account.id a)).
      rewrite <- Hao. f_equal.
      assert (a = acc) as ->; [|reflexivity].
      apply (find_key_unique Account.id (Account.id acc) (accounts s)); auto.
      rewrite Hid. exact Hacc.
    + rewrite Z.eqb_sym, E, app_nil_r. exact Hao.
Qed.

(** ** What each view commits *)

Lemma login_post_store (e : env) (auth : bool) (s : db) (u p : field string) :
  store (login_post e auth s u p) = s.
Proof.
  unfold login_post. destruct auth; [reflexivity|].
  destruct u, p; simpl; try reflexivity.
  destruct (user_by_name s _); [|reflexivity].
  now destruct (check_password_hash e _ _).
Qed.

Lemma pendencias_create_cases (e : env) (s : db) (f : pendencia_form) :
  (exists ex, pendencias_create e s f = unchanged (Raised ex) s) \/
  (exists t d a k i c,
      PrimFloat.is_nan a = false /\
      int64 (next_id (map PendingItem.id (pending_items s))) = true /\
      pendencias_create e s f =
      unchanged (Redirect "pendencias") (add_pending s (uuid_view e) t d a k i c)).
Proof.
  unfold pendencias_create, fresh_key.
  destruct f as [[t| |] [d| |] [a| |] [k| |] [i| |] [c| |]]; simpl;
    try (left; eexists; reflexivity);
    destruct (negb _); try (left; eexists; reflexivity);
    destruct (int64 (next_id _)) eqn:Hkey; try (left; eexists; reflexivity);
    simpl; destruct (PrimFloat.is_nan a) eqn:Hnan; try (left; eexists; reflexivity);
    right; do 6 eexists; repeat split; assumption.
Qed.

Lemma pendencias_pay_cases (e : env) (s : db) (pid : Z) (f : field float) :
  store (pendencias_pay e s pid f) = s \/
  (exists p acc paid,
      get_pending s pid = ok (Some p) /\
      is_open p = true /\
      get_account s (PendingItem.account_id p) = ok (Some acc) /\
      PrimFloat.is_nan (trx_amount (PendingItem.kind p) paid) = false /\
      int64 (next_id (map Transaction.id (transactions s))) = true /\
      store (pendencias_pay e s pid f) = settle_store e s p acc paid).
Proof.
  unfold pendencias_pay.
  destruct (get_pending s pid) as [ex|[p|]] eqn:Hp; [now left| |now left].
  destruct (String.eqb (PendingItem.status p) "PAGO") eqn:Hst; [now left|].
  destruct f as [paid| |]; simpl; try now left.
  destruct (get_account s (PendingItem.account_id p)) as [ex|[acc|]] eqn:Hacc;
    [now left| |now left].
  destruct (PrimFloat.is_nan _ || PrimFloat.is_nan _) eqn:Hnan; [now left|].
  apply orb_false_elim in Hnan. destruct Hnan as [_ Hnan].
  unfold fresh_key.
  destruct (int64 (next_id _)) eqn:Hkey; [|now left].
  right. exists p, acc, paid.
  split; [reflexivity|]. split; [unfold is_open; now rewrite Hst|].
  split; [exact Hacc|]. split; [exact Hnan|]. split; reflexivity.
Qed.

Lemma contas_create_cases (e : env) (s : db) (n : field string) (b : field float) :
  store (contas_create e s n b) =
  match n, b with
  | Given n', Given b' =>
      if int64 (next_id (map Account.id (accounts s))) && negb (PrimFloat.is_nan b')
      then add_account s (uuid_view e) (str_strip e n') b'
      else s
  | _, _ => s
  end.
Proof.
  destruct n, b; try reflexivity. unfold contas_create, fresh_key. simpl.
  destruct (int64 (next_id _)); [|reflexivity]. simpl.
  now destruct (PrimFloat.is_nan a0).
Qed.

Lemma credores_create_cases (e : env) (s : db) (n c : field string) :
  store (credores_create e s n c) = s \/
  exists n' c',
    int64 (next_id (map Creditor.id (creditors s))) = true /\
    store (credores_create e s n c) = add_creditor s (uuid_view e) n' c'.
Proof.
  destruct n, c; simpl; auto. unfold credores_create, fresh_key. simpl.
  destruct (int64 (next_id _)) eqn:Hkey; [|now left].
  right. now do 2 eexists.
Qed.

Lemma login_required_store (auth : bool) (s : db) (body : result) :
  store (login_required auth s body) = if auth then store body else s.
Proof. now destruct auth. Qed.

(** ** Invariants of the reachable states *)

Lemma ledger_bootstrap (og : list float) (e : env) (s : db) :
  ledger_ok og s ->
  ledger_ok (og ++ match accounts s with [] => [0%float] | _ :: _ => [] end)
            (bootstrap_defaults e s).
Proof.
  intros H. unfold bootstrap_defaults.
  destruct (user_by_name s "admin").
  - destruct (accounts s) eqn:E; simpl.
    + now apply ledger_add_account.
    + now rewrite app_nil_r.
  - apply (ledger_add_user _ _ "admin" (admin_hash e)) in H.
    change (accounts (add_user s "admin" (admin_hash e))) with (accounts s).
    destruct (accounts s) eqn:E; simpl.
    + replace (add_account _ _ _ _) with
        (add_account (add_user s "admin" (admin_hash e)) (uuid_boot e)
                     "Conta Principal" 0%float)
        by (unfold add_account, add_user; simpl; now rewrite E).
      now apply ledger_add_account.
    + now rewrite app_nil_r.
Qed.

Lemma ledger_dispatch (og : list float) (e : env) (auth : bool) (r : request) (s : db) :
  ledger_ok og s ->
  ledger_ok (og ++ match auth, r with
                   | true, PostContasCreate (Given _) (Given b) =>
                       if int64 (next_id (map Account.id (accounts s))) &&
                          negb (PrimFloat.is_nan b)
                       then [b] else []
                   | _, _ => []
                   end)
            (store (dispatch e auth r s)).
Proof.
  intros H.
  destruct r; simpl; rewrite ?login_required_store, ?login_post_store;
    try (destruct auth; simpl; rewrite app_nil_r; exact H).
  - destruct auth; [|now rewrite app_nil_r]. rewrite app_nil_r.
    destruct (pendencias_create_cases e s f) as [[ex ->] | (t & d & a & k & i & c & _ & _ & ->)];
      [exact H | now apply ledger_add_pending].
  - destruct auth; [|now rewrite app_nil_r]. rewrite app_nil_r.
    destruct (pendencias_pay_cases e s pending_id paid_amount)
      as [-> | (p & acc & paid & _ & _ & Hacc & _ & _ & ->)];
      [exact H | now apply ledger_settle].
  - destruct auth; [|now rewrite app_nil_r].
    rewrite contas_create_cases.
    destruct name, opening_balance; try (now rewrite app_nil_r).
    destruct (int64 _ && _); [now apply ledger_add_account | now rewrite app_nil_r].
  - destruct auth; [|now rewrite app_nil_r]. rewrite app_nil_r.
    destruct (credores_create_cases e s name ctype) as [-> | (n' & c' & _ & ->)];
      [exact H | now apply ledger_add_creditor].
Qed.

Lemma ledger_handle (og : list float) (e : env) (auth : bool) (r : request) (s : db) :
  ledger_ok og s -> ledger_ok (og ++ opened e auth r s) (store (handle e auth r s)).
Proof.
  intros H. unfold handle, ensure_db, opened. rewrite app_assoc.
  apply ledger_dispatch. now apply ledger_bootstrap.
Qed.

Lemma reachable_ledger (og : list float) (s : db) :
  reachable og s -> ledger_ok og s.
Proof.
  induction 1 as [|og s e auth r _ IH].
  - repeat constructor.
  - now apply ledger_handle.
Qed.


Lemma obligations_bootstrap (e : env) (s : db) :
  pending_items (bootstrap_defaults e s) = pending_items s.
Proof.
  unfold bootstrap_defaults.
  destruct (user_by_name s "admin"); simpl;
    now destruct (List.length (accounts s) =? 0)%nat.
Qed.



(** * The claims *)

(** ** Settlement of an open obligation *)

(** C1, as the spec states it, fails: not every open obligation can be
    settled.  An obligation created against an account that does not exist
    is reachable and open, and settling it raises and posts nothing; so
    does settling any open obligation with a paid amount that is NaN. *)
Lemma settlement_may_post_nothing :
  (exists og, reachable og demo_dangling) /\
  (exists p, get_pending demo_dangling 1 = ok (Some p) /\
             PendingItem.status p = "ABERTO" /\ PendingItem.kind p = "PAGAR" /\
             get_account demo_dangling (PendingItem.account_id p) = ok None) /\
  pendencias_pay demo_env demo_dangling 1 (Given 10%float) =
    unchanged (Raised AttributeError) demo_dangling /\
  get_pending demo_pending 1 = ok (Some demo_bill_item) /\
  pendencias_pay demo_env demo_pending 1 (Given nan) =
    unchanged (Raised IntegrityError) demo_pending.
Proof.
  split; [|split; [|repeat split]].
  - eexists.
    exact (reach_request _ _ demo_env true (PostPendenciasCreate form_dangling_donation)
             (reach_request _ _ demo_env true (PostPendenciasCreate form_dangling_account)
                (reach_request _ _ demo_env true open_savings reach_empty))).
  - eexists. repeat split.
Qed.




(** C9, as the spec states it, fails for the same reason as C1: an open
    obligation of a kind outside the three documented ones, created
    against an account that does not exist, is reachable, and settling it
    raises and posts nothing; so does a paid amount that is NaN. *)
Lemma other_kind_may_post_nothing :
  (exists og, reachable og demo_dangling) /\
  (exists p, get_pending demo_dangling 2 = ok (Some p) /\
             PendingItem.status p = "ABERTO" /\ PendingItem.kind p = "DOACAO" /\
             get_account demo_dangling (PendingItem.account_id p) = ok None) /\
  pendencias_pay demo_env demo_dangling 2 (Given 50%float) =
    unchanged (Raised AttributeError) demo_dangling /\
  get_pending demo_pending 2 = ok (Some demo_donation_item) /\
  pendencias_pay demo_env demo_pending 2 (Given nan) =
    unchanged (Raised IntegrityError) demo_pending.
Proof.
  split; [|split; [|repeat split]].
  - eexists.
    exact (reach_request _ _ demo_env true (PostPendenciasCreate form_dangling_donation)
             (reach_request _ _ demo_env true (PostPendenciasCreate form_dangling_account)
                (reach_request _ _ demo_env true open_savings reach_empty))).
  - eexists. repeat split.
Qed.



Lemma pendencias_pay_redirects (e : env) (s : db) (pid : Z) (p : PendingItem.t)
    (f : field float) :
  get_pending s pid = ok (Some p) ->
  is_open p = true ->
  reply (pendencias_pay e s pid f) = Redirect "pendencias" ->
  exists acc paid,
    f = Given paid /\
    get_account s (PendingItem.account_id p) = ok (Some acc) /\
    PrimFloat.is_nan paid = false /\
    pendencias_pay e s pid f =
    unchanged (Redirect "pendencias") (settle_store e s p acc paid).
Proof.
  intros Hp Hopen. unfold pendencias_pay. rewrite Hp. unfold ok.
  rewrite (is_open_status _ Hopen).
  destruct f as [paid| |]; simpl; try discriminate.
  destruct (get_account s (PendingItem.account_id p)) as [ex|[acc|]] eqn:Hacc;
    try discriminate.
  destruct (PrimFloat.is_nan _ || PrimFloat.is_nan _) eqn:Hnan; [discriminate|].
  apply orb_false_elim in Hnan. destruct Hnan as [_ Hnan].
  rewrite is_nan_trx_amount in Hnan.
  unfold fresh_key. destruct (int64 (next_id _)); [|discriminate].
  intros _. exists acc, paid. repeat split. exact Hnan.
Qed.

(** C4, as the spec states it, fails: the difference is not always set.
    An obligation of an infinite amount is accepted; settling it with an
    infinite paid amount succeeds, and the obligation is then PAGO with the
    paid amount recorded and the difference, which is not a number, left
    NULL. *)
Lemma difference_may_stay_null :
  (exists og, reachable og demo_unbounded) /\
  (exists p, get_pending demo_unbounded 1 = ok (Some p) /\
             PendingItem.status p = "ABERTO" /\
             PendingItem.amount p = infinity) /\
  reply (pendencias_pay demo_env demo_unbounded 1 (Given infinity)) =
    Redirect "pendencias" /\
  exists p',
    get_pending (store (pendencias_pay demo_env demo_unbounded 1 (Given infinity))) 1 =
      ok (Some p') /\
    PendingItem.status p' = "PAGO" /\
    PendingItem.paid_amount p' = Some infinity /\
    PendingItem.diff_interest_or_discount p' = None.
Proof.
  split; [|split; [|split]].
  - eexists.
    exact (reach_request _ _ demo_env true (PostPendenciasCreate form_unbounded)
             (reach_request _ _ demo_env true open_savings reach_empty)).
  - eexists. repeat split.
  - reflexivity.
  - eexists. repeat split.
Qed.



(** ** Settlement attempts that change nothing *)

(** C2, as the spec states it, fails: settling an obligation that is
    already PAGO reports nothing.  The reply carries no error and no
    flashed message, and it is the reply of the settlement that
    succeeded. *)
Lemma settled_again_is_not_reported :
  (exists p, get_pending demo_settled 1 = ok (Some p) /\
             PendingItem.status p = "PAGO") /\
  ~ reports_error (pendencias_pay demo_env demo_settled 1 (Given 120%float)) /\
  reply (pendencias_pay demo_env demo_settled 1 (Given 120%float)) =
  reply (pendencias_pay demo_env demo_pending 1 (Given 120%float)).
Proof.
  split; [eexists; split; reflexivity|]. split; [|reflexivity].
  intros [[ex H] | H]; [discriminate H | now apply H].
Qed.

(** C2, amended.  A settlement attempt on an obligation that is already
    PAGO is a silent no-op: it answers with the redirect to the obligation
    list, flashes nothing, and commits the store it found, so no
    transaction is posted and no balance or obligation changes. *)
Theorem settle_settled_is_silent (e : env) (s : db) (pid : Z)
    (p : PendingItem.t) (f : field float) :
  get_pending s pid = ok (Some p) ->
  PendingItem.status p = "PAGO" ->
  let r := pendencias_pay e s pid f in
  reply r = Redirect "pendencias" /\ flashed r = [] /\ store r = s.
Proof.
  intros Hp Hst r. subst r. unfold pendencias_pay. rewrite Hp. unfold ok.
  rewrite Hst. simpl. auto.
Qed.

Lemma settle_settled_is_silent_witness :
  let r := pendencias_pay demo_env demo_settled 1 (Given 120%float) in
  reply r = Redirect "pendencias" /\ flashed r = [] /\ store r = demo_settled.
Proof.
  apply (settle_settled_is_silent demo_env demo_settled 1
           (settled demo_bill_item 120%float) (Given 120%float)); reflexivity.
Defined.




(** ** Balance and transaction log *)

Lemma Forall2_nth_error_left {A B : Type} (P : A -> B -> Prop)
    (l : list A) (l' : list B) (n : nat) (a : A) :
  Forall2 P l l' -> nth_error l n = Some a ->
  exists b, nth_error l' n = Some b /\ P a b.
Proof.
  intros H. revert n. induction H as [|x y l l' Hxy _ IH]; intros [|n] Hn;
    simpl in *; try discriminate.
  - injection Hn as <-. now exists y.
  - now apply IH.
Qed.

(** C3, as the spec states it, fails: an account opened with a balance has
    that balance and no transaction.  After the savings account is opened
    with 100.0 the store is reachable, the account holds 100.0 and the sum
    of its transactions is 0. *)
Lemma balance_is_not_sum_of_postings :
  reachable [0%float; 100%float] demo_opened /\
  In demo_savings (accounts demo_opened) /\
  posted (transactions demo_opened) (Account.id demo_savings) = [] /\
  Account.balance demo_savings <>
  py_sum (posted (transactions demo_opened) (Account.id demo_savings)).
Proof.
  split; [exact (reach_request _ _ demo_env true open_savings reach_empty)|].
  split; [right; left; reflexivity|]. split; [reflexivity|].
  intros H. apply (f_equal (PrimFloat.ltb 0%float)) in H.
  vm_compute in H. discriminate H.
Qed.

(** C3, amended.  In every reachable state the balance of the n-th account
    is its opening balance (0.0 for the bootstrap account, the submitted
    opening balance otherwise) with the amounts of the transactions posted
    against it added one after the other in posting order. *)
Theorem balance_is_opening_plus_postings (og : list float) (s : db) (n : nat)
    (a : Account.t) :
  reachable og s ->
  nth_error (accounts s) n = Some a ->
  exists o,
    nth_error og n = Some o /\
    Account.balance a =
    fold_left PrimFloat.add (posted (transactions s) (Account.id a)) o.
Proof.
  intros Hreach Hn. apply reachable_ledger in Hreach.
  destruct Hreach as [_ _ Hbal].
  exact (Forall2_nth_error_left _ _ _ _ _ Hbal Hn).
Qed.

Lemma balance_is_opening_plus_postings_witness :
  exists o,
    nth_error [0%float; 100%float] 1 = Some o /\
    Account.balance (Account.mk 2 "ACC-FEDCBA9876" "Poupanca" (-20)%float) =
    fold_left PrimFloat.add (posted (transactions demo_settled) 2) o.
Proof.
  apply (balance_is_opening_plus_postings _ demo_settled 1
           (Account.mk 2 "ACC-FEDCBA9876" "Poupanca" (-20)%float)
           (reach_request _ _ demo_env true (PostPendenciasPay 1 (Given 120%float))
              (reach_request _ _ demo_env true register_donation
                 (reach_request _ _ demo_env true register_bill
                    (reach_request _ _ demo_env true open_savings reach_empty))))).
  reflexivity.
Defined.

(** ** Creation of obligations *)




(** ** Bootstrap *)

Lemma find_snoc_hit {A : Type} (f : A -> bool) (l : list A) (x : A) :
  f x = true -> find f (l ++ [x]) <> None.
Proof.
  intros Hx. induction l as [|y l IH]; simpl.
  - now rewrite Hx.
  - now destruct (f y).
Qed.

Lemma bootstrap_defaults_done (e : env) (s : db) :
  bootstrapped s -> bootstrap_defaults e s = s.
Proof.
  intros [Hu Ha]. unfold bootstrap_defaults.
  destruct (user_by_name s "admin"); [|contradiction].
  now destruct (accounts s).
Qed.

Lemma bootstrap_defaults_bootstraps (e : env) (s : db) :
  bootstrapped (bootstrap_defaults e s).
Proof.
  unfold bootstrap_defaults.
  set (s1 := match user_by_name s "admin" with
             | Some _ => s
             | None => add_user s "admin" (admin_hash e)
             end).
  assert (Hu : user_by_name s1 "admin" <> None).
  { subst s1. destruct (user_by_name s "admin") eqn:E; [congruence|].
    unfold user_by_name, add_user. simpl. now apply find_snoc_hit. }
  destruct (accounts s1) as [|a l] eqn:Ea; simpl.
  - split; [exact Hu|]. unfold add_account. simpl. rewrite Ea. discriminate.
  - split; [exact Hu|]. rewrite Ea. discriminate.
Qed.

Lemma dispatch_users (e : env) (auth : bool) (r : request) (s : db) :
  users (store (dispatch e auth r s)) = users s.
Proof.
  destruct r; simpl; rewrite ?login_required_store, ?login_post_store;
    try (now destruct auth).
  - destruct auth; [|reflexivity].
    now destruct (pendencias_create_cases e s f)
      as [[ex ->] | (t & d & a & k & i & c & _ & _ & ->)].
  - destruct auth; [|reflexivity].
    now destruct (pendencias_pay_cases e s pending_id paid_amount)
      as [-> | (p & acc & paid & _ & _ & _ & _ & _ & ->)].
  - destruct auth; [|reflexivity]. rewrite contas_create_cases.
    destruct name, opening_balance; try easy; now destruct (int64 _ && _).
  - destruct auth; [|reflexivity].
    now destruct (credores_create_cases e s name ctype) as [-> | (n' & c' & _ & ->)].
Qed.

Lemma dispatch_accounts (e : env) (auth : bool) (r : request) (s : db) :
  accounts s <> [] -> accounts (store (dispatch e auth r s)) <> [].
Proof.
  intros H.
  destruct r; simpl; rewrite ?login_required_store, ?login_post_store;
    try (now destruct auth).
  - destruct auth; [|exact H].
    now destruct (pendencias_create_cases e s f)
      as [[ex ->] | (t & d & a & k & i & c & _ & _ & ->)].
  - destruct auth; [|exact H].
    destruct (pendencias_pay_cases e s pending_id paid_amount)
      as [-> | (p & acc & paid & _ & _ & _ & _ & _ & ->)]; [exact H|].
    unfold settle_store. simpl. destruct (accounts s); [contradiction|discriminate].
  - destruct auth; [|exact H]. rewrite contas_create_cases.
    destruct name, opening_balance; try exact H.
    destruct (int64 _ && _); [|exact H].
    simpl. destruct (accounts s); discriminate.
  - destruct auth; [|exact H].
    now destruct (credores_create_cases e s name ctype) as [-> | (n' & c' & _ & ->)].
Qed.

Lemma handle_bootstraps (e : env) (auth : bool) (r : request) (s : db) :
  bootstrapped (store (handle e auth r s)).
Proof.
  unfold handle, ensure_db.
  destruct (bootstrap_defaults_bootstraps e s) as [Hu Ha]. split.
  - unfold user_by_name in *. now rewrite dispatch_users.
  - now apply dispatch_accounts.
Qed.

Lemma reachable_bootstrapped (og : list float) (s : db) :
  reachable og s -> s = empty_db \/ bootstrapped s.
Proof.
  intros [|og' s' e auth r _]; [now left | right; apply handle_bootstraps].
Qed.

(** C10.  The bootstrap changes nothing in a store that has the admin user
    and at least one account, and in every store a second run, whatever
    hash and identifier it draws, leaves what the first run produced. *)
Theorem bootstrap_defaults_idempotent :
  (forall e s,
      user_by_name s "admin" <> None -> accounts s <> [] ->
      bootstrap_defaults e s = s) /\
  (forall e1 e2 s,
      bootstrap_defaults e2 (bootstrap_defaults e1 s) = bootstrap_defaults e1 s).
Proof.
  split.
  - intros e s Hu Ha. apply bootstrap_defaults_done. now split.
  - intros e1 e2 s. apply bootstrap_defaults_done, bootstrap_defaults_bootstraps.
Qed.

Lemma bootstrap_defaults_idempotent_witness :
  bootstrap_defaults demo_env demo_settled = demo_settled.
Proof.
  apply (proj1 bootstrap_defaults_idempotent demo_env demo_settled);
    intros H; discriminate H.
Defined.

(** ** The dashboard *)

(** C7, as the spec states it, fails: a dashboard request on the empty
    database leaves the admin user and the default account behind, whether
    or not the caller is logged in. *)
Lemma dashboard_request_writes :
  store (handle demo_env true GetDashboard empty_db) <> empty_db /\
  store (handle demo_env false GetDashboard empty_db) <> empty_db /\
  users (store (handle demo_env true GetDashboard empty_db)) =
    [User.mk 1 "admin" "scrypt:32768:8:1$salt$digest"] /\
  accounts (store (handle demo_env true GetDashboard empty_db)) =
    [Account.mk 1 "ACC-0123456789" "Conta Principal" 0%float].
Proof.
  repeat split; intros H; apply (f_equal users) in H; discriminate H.
Qed.

(** C7, amended.  The dashboard view itself writes nothing.  A dashboard
    request changes the store only through the bootstrap that runs before
    every request: it leaves the store unchanged whenever the admin user
    and an account exist, which holds in every reachable state but the
    empty database. *)
Theorem dashboard_reads_only :
  (forall s, store (dashboard s) = s) /\
  (forall e auth s,
      user_by_name s "admin" <> None -> accounts s <> [] ->
      store (handle e auth GetDashboard s) = s) /\
  (forall og e auth s,
      reachable og s -> s <> empty_db ->
      store (handle e auth GetDashboard s) = s).
Proof.
  assert (H : forall e auth s, bootstrapped s ->
                               store (handle e auth GetDashboard s) = s).
  { intros e auth s Hb. unfold handle, ensure_db.
    rewrite (bootstrap_defaults_done e s Hb). simpl. now destruct auth. }
  split; [reflexivity|]. split.
  - intros e auth s Hu Ha. apply H. now split.
  - intros og e auth s Hreach Hne. apply H.
    now destruct (reachable_bootstrapped og s Hreach).
Qed.

Lemma dashboard_reads_only_witness :
  store (handle demo_env true GetDashboard demo_settled) = demo_settled.
Proof.
  apply (proj1 (proj2 dashboard_reads_only) demo_env true demo_settled);
    intros H; discriminate H.
Defined.

Lemma py_sum_balances (acc : float) (l : list Account.t) :
  fold_left PrimFloat.add (map Account.balance l) acc = sum_balances acc l.
Proof.
  revert acc. induction l as [|a l IH]; intros acc; simpl; [reflexivity | apply IH].
Qed.

Lemma count_open_filter (l : list PendingItem.t) :
  List.length (filter is_open l) = count_not_settled l.
Proof.
  induction l as [|p l IH]; simpl; [reflexivity|]. unfold is_open at 1.
  destruct (string_dec (PendingItem.status p) "PAGO") as [E|E].
  - rewrite E. simpl. exact IH.
  - apply String.eqb_neq in E. rewrite E. simpl. now rewrite IH.
Qed.

(** C8.  The dashboard reports as total balance the balances of all
    accounts added up from 0 in account order, as open obligations the
    number of obligations whose status is not PAGO, and as creditors the
    number of creditors. *)
Theorem dashboard_kpis (s : db) :
  exists k ultimas,
    reply (dashboard s) = Dashboard k ultimas /\
    saldo_total k = py_sum (map Account.balance (accounts s)) /\
    saldo_total k = sum_balances 0%float (accounts s) /\
    pendencias_abertas k = count_not_settled (pending_items s) /\
    credores k = List.length (creditors s).
Proof.
  do 2 eexists. split; [reflexivity|]. simpl. repeat split.
  - apply py_sum_balances.
  - apply count_open_filter.
Qed.


(** * Further properties *)

(** ** Primary keys *)

Lemma max_of_sequence (a n : nat) :
  fold_right Z.max 0 (map Z.of_nat (seq a n)) =
  match n with O => 0 | S _ => Z.of_nat (a + n - 1) end.
Proof.
  revert a. induction n as [|n IH]; intros a; [reflexivity|].
  cbn [seq map fold_right]. rewrite IH. destruct n; lia.
Qed.

Lemma next_id_in_sequence (ids : list Z) :
  keys_in_sequence ids -> next_id ids = Z.of_nat (S (List.length ids)).
Proof.
  unfold keys_in_sequence, next_id. intros [-> _].
  rewrite max_of_sequence, length_map, length_seq.
  destruct (List.length ids); lia.
Qed.

Lemma int64_bounds (i : Z) : int64 i = true <-> - 2 ^ 63 <= i < 2 ^ 63.
Proof.
  unfold int64. rewrite andb_true_iff, Z.leb_le, Z.ltb_lt. tauto.
Qed.

Lemma keys_in_sequence_snoc (ids : list Z) :
  keys_in_sequence ids -> int64 (next_id ids) = true ->
  keys_in_sequence (ids ++ [next_id ids]).
Proof.
  intros H Hkey. rewrite (next_id_in_sequence ids H) in *.
  apply int64_bounds in Hkey. destruct H as [H Hlen]. split.
  - rewrite length_app. simpl. rewrite Nat.add_1_r, seq_S, map_app. simpl.
    now rewrite <- H.
  - rewrite length_app. simpl. lia.
Qed.

Lemma keys_in_sequence_NoDup (ids : list Z) :
  keys_in_sequence ids -> NoDup ids.
Proof.
  intros [-> _]. generalize (seq_NoDup (List.length ids) 1).
  generalize (seq 1 (List.length ids)). intros l Hl.
  induction Hl as [|x l Hx _ IH]; simpl; constructor; [|exact IH].
  intros Hin. apply in_map_iff in Hin. destruct Hin as (y & Hy & Hin).
  apply Nat2Z.inj in Hy. now subst y.
Qed.

Lemma keys_in_sequence_int64 (ids : list Z) (i : Z) :
  keys_in_sequence ids -> In i ids -> int64 i = true.
Proof.
  intros [H Hlen] Hin. rewrite H in Hin. apply in_map_iff in Hin.
  destruct Hin as (n & <- & Hn). apply in_seq in Hn.
  apply int64_bounds. lia.
Qed.

Lemma keys_in_sequence_nil : keys_in_sequence [].
Proof. split; [reflexivity | simpl; lia]. Qed.

Lemma keys_add_user (s : db) (h : string) :
  users s = [] -> keys_ok s -> keys_ok (add_user s "admin" h).
Proof.
  intros Hu [H1 H2 H3 H4 H5]. constructor; simpl; try assumption.
  right. exists h. now rewrite Hu.
Qed.

Lemma keys_add_account (s : db) (x n : string) (b : float) :
  int64 (next_id (map Account.id (accounts s))) = true ->
  keys_ok s -> keys_ok (add_account s x n b).
Proof.
  intros Hkey [H1 H2 H3 H4 H5]. constructor; simpl; try assumption.
  rewrite map_app. now apply keys_in_sequence_snoc.
Qed.

Lemma keys_add_creditor (s : db) (x n c : string) :
  int64 (next_id (map Creditor.id (creditors s))) = true ->
  keys_ok s -> keys_ok (add_creditor s x n c).
Proof.
  intros Hkey [H1 H2 H3 H4 H5]. constructor; simpl; try assumption.
  rewrite map_app. now apply keys_in_sequence_snoc.
Qed.

Lemma keys_add_pending (s : db) (x t d : string) (a : float) (k : string)
    (i : Z) (c : option Z) :
  int64 (next_id (map PendingItem.id (pending_items s))) = true ->
  keys_ok s -> keys_ok (add_pending s x t d a k i c).
Proof.
  intros Hkey [H1 H2 H3 H4 H5]. constructor; simpl; try assumption.
  rewrite map_app. now apply keys_in_sequence_snoc.
Qed.

Lemma keys_settle (e : env) (s : db) (p : PendingItem.t) (acc : Account.t)
    (paid : float) :
  int64 (next_id (map Transaction.id (transactions s))) = true ->
  keys_ok s -> keys_ok (settle_store e s p acc paid).
Proof.
  intros Hkey [H1 H2 H3 H4 H5]. constructor; unfold settle_store; simpl;
    try assumption.
  - rewrite map_map.
    erewrite map_ext; [exact H2|]. intros a. simpl.
    now destruct (Account.id a =? Account.id acc).
  - rewrite map_app. now apply keys_in_sequence_snoc.
  - rewrite map_map.
    erewrite map_ext; [exact H5|]. intros q. simpl.
    now destruct (PendingItem.id q =? PendingItem.id p).
Qed.

Lemma keys_bootstrap (e : env) (s : db) :
  keys_ok s -> keys_ok (bootstrap_defaults e s).
Proof.
  intros H. unfold bootstrap_defaults.
  assert (H1 : keys_ok match user_by_name s "admin" with
                       | Some _ => s
                       | None => add_user s "admin" (admin_hash e)
                       end).
  { destruct (user_by_name s "admin") eqn:Hu; [exact H|].
    apply keys_add_user; [|exact H].
    destruct H as [[Hs | [hash Hs]] _ _ _ _]; [exact Hs|].
    unfold user_by_name in Hu. rewrite Hs in Hu. discriminate Hu. }
  set (s1 := match user_by_name s "admin" with
             | Some _ => s
             | None => add_user s "admin" (admin_hash e)
             end) in *.
  destruct (accounts s1) as [|a l] eqn:Ha; simpl; [|exact H1].
  apply keys_add_account; [|exact H1]. now rewrite Ha.
Qed.

Lemma keys_dispatch (e : env) (auth : bool) (r : request) (s : db) :
  keys_ok s -> keys_ok (store (dispatch e auth r s)).
Proof.
  intros H.
  destruct r; simpl; rewrite ?login_required_store, ?login_post_store;
    try (destruct auth; simpl; exact H).
  - destruct auth; [|exact H].
    destruct (pendencias_create_cases e s f)
      as [[ex ->] | (t & d & a & k & i & c & _ & Hkey & ->)];
      [exact H | now apply keys_add_pending].
  - destruct auth; [|exact H].
    destruct (pendencias_pay_cases e s pending_id paid_amount)
      as [-> | (p & acc & paid & _ & _ & _ & _ & Hkey & ->)];
      [exact H | now apply keys_settle].
  - destruct auth; [|exact H]. rewrite contas_create_cases.
    destruct name, opening_balance; try exact H.
    destruct (int64 _) eqn:Hkey; simpl; [|exact H].
    destruct (negb _); [now apply keys_add_account | exact H].
  - destruct auth; [|exact H].
    destruct (credores_create_cases e s name ctype) as [-> | (n' & c' & Hkey & ->)];
      [exact H | now apply keys_add_creditor].
Qed.

Lemma reachable_keys (og : list float) (s : db) :
  reachable og s -> keys_ok s.
Proof.
  induction 1 as [|og s e auth r _ IH].
  - constructor; solve [now left | apply keys_in_sequence_nil].
  - unfold handle, ensure_db. now apply keys_dispatch, keys_bootstrap.
Qed.

Lemma find_key_present {A : Type} (key : A -> Z) (l : list A) (x : A) :
  NoDup (map key l) -> In x l -> find (fun y => key y =? key x) l = Some x.
Proof.
  intros Hnd Hin.
  destruct (find (fun y => key y =? key x) l) as [y|] eqn:E.
  - f_equal. symmetry. now apply (find_key_unique key (key x) l x y).
  - exfalso. apply (find_none _ _ E x) in Hin. now rewrite Z.eqb_refl in Hin.
Qed.

Lemma session_get_present {A : Type} (key : A -> Z) (l : list A) (x : A) :
  keys_in_sequence (map key l) -> In x l ->
  session_get key l (key x) = ok (Some x).
Proof.
  intros Hk Hin.
  rewrite session_get_bound
    by (apply (keys_in_sequence_int64 (map key l)); [exact Hk | now apply in_map]).
  f_equal. apply find_key_present; [now apply keys_in_sequence_NoDup | exact Hin].
Qed.

(** X1.  In every reachable state the primary keys of each table are
    distinct, so a row is what a lookup by its key returns: this holds for
    [load_user] and for the two lookups of the settlement. *)
Theorem rows_found_by_key (og : list float) (s : db) :
  reachable og s ->
  (forall u, In u (users s) -> load_user s (User.id u) = ok (Some u)) /\
  (forall a, In a (accounts s) -> get_account s (Account.id a) = ok (Some a)) /\
  (forall p, In p (pending_items s) ->
             get_pending s (PendingItem.id p) = ok (Some p)).
Proof.
  intros Hreach. apply reachable_keys in Hreach. destruct Hreach as [Hu Ha _ _ Hp].
  repeat split; intros x Hx.
  - destruct Hu as [Hu | [hash Hu]]; rewrite Hu in Hx; [contradiction|].
    destruct Hx as [<- | []]. unfold load_user. now rewrite Hu.
  - now apply (session_get_present Account.id).
  - now apply (session_get_present PendingItem.id).
Qed.

Lemma rows_found_by_key_witness :
  (forall u, In u (users demo_settled) ->
             load_user demo_settled (User.id u) = ok (Some u)) /\
  (forall a, In a (accounts demo_settled) ->
             get_account demo_settled (Account.id a) = ok (Some a)) /\
  (forall p, In p (pending_items demo_settled) ->
             get_pending demo_settled (PendingItem.id p) = ok (Some p)).
Proof.
  apply (rows_found_by_key _ demo_settled
           (reach_request _ _ demo_env true (PostPendenciasPay 1 (Given 120%float))
              (reach_request _ _ demo_env true register_donation
                 (reach_request _ _ demo_env true register_bill
                    (reach_request _ _ demo_env true open_savings reach_empty))))).
Defined.

(** ** What no sequence of requests undoes *)

Lemma find_app_found {A : Type} (f : A -> bool) (l l' : list A) (x : A) :
  find f l = Some x -> find f (l ++ l') = Some x.
Proof.
  induction l as [|y l IH]; simpl; [discriminate|].
  now destruct (f y).
Qed.

Lemma bootstrap_pending (e : env) (s : db) (i : Z) :
  get_pending (bootstrap_defaults e s) i = get_pending s i.
Proof. unfold get_pending. now rewrite obligations_bootstrap. Qed.

Lemma settled_survives_dispatch (e : env) (auth : bool) (r : request) (s : db)
    (i : Z) (p : PendingItem.t) :
  get_pending s i = ok (Some p) ->
  PendingItem.status p = "PAGO" ->
  get_pending (store (dispatch e auth r s)) i = ok (Some p).
Proof.
  intros Hp Hst.
  destruct r; simpl; rewrite ?login_required_store, ?login_post_store;
    try (destruct auth; simpl; exact Hp).
  - destruct auth; [|exact Hp].
    destruct (pendencias_create_cases e s f)
      as [[ex ->] | (t & d & a & k & j & c & _ & _ & ->)]; [exact Hp|].
    unfold get_pending in *. simpl. now apply session_get_app.
  - destruct auth; [|exact Hp].
    destruct (pendencias_pay_cases e s pending_id paid_amount)
      as [-> | (q & acc & paid & Hq & Hopen & _ & _ & _ & ->)]; [exact Hp|].
    unfold get_pending, settle_store in *. simpl.
    erewrite session_get_map; [| |exact Hp].
    + simpl. destruct (PendingItem.id p =? PendingItem.id q) eqn:E; [|reflexivity].
      exfalso. apply Z.eqb_eq in E.
      apply (session_get_row PendingItem.id) in Hp as Hp'.
      apply (session_get_row PendingItem.id) in Hq as Hq'.
      destruct Hp' as [_ Hp'], Hq' as [_ Hq'].
      rewrite Hp', Hq' in E. subst i.
      rewrite Hp in Hq. injection Hq as <-.
      apply is_open_status in Hopen. rewrite Hst in Hopen. discriminate.
    + intros x. now destruct (PendingItem.id x =? PendingItem.id q).
  - destruct auth; [|exact Hp]. rewrite contas_create_cases.
    destruct name, opening_balance; try easy; now destruct (int64 _ && _).
  - destruct auth; [|exact Hp].
    now destruct (credores_create_cases e s name ctype) as [-> | (n' & c' & _ & ->)].
Qed.

(** X2.  A settled obligation is final: whatever requests follow, also
    further settlement attempts on it, the row found under its key stays
    the same, with its status, paid amount and difference. *)
Theorem settled_is_final (calls : list call) (s : db) (i : Z) (p : PendingItem.t) :
  get_pending s i = ok (Some p) ->
  PendingItem.status p = "PAGO" ->
  get_pending (run calls s) i = ok (Some p).
Proof.
  intros Hp Hst. revert s Hp.
  induction calls as [|[[e auth] r] calls IH]; intros s Hp; [exact Hp|].
  simpl. apply IH. unfold handle, ensure_db.
  apply settled_survives_dispatch; [|exact Hst].
  now rewrite bootstrap_pending.
Qed.

Lemma settled_is_final_witness :
  get_pending
    (run [(demo_env, true, PostPendenciasPay 1 (Given 999%float));
          (demo_env, true, register_bill);
          (demo_env, false, PostPendenciasPay 1 (Given 1%float))] demo_settled) 1 =
  ok (Some (settled demo_bill_item 120%float)).
Proof.
  apply (settled_is_final _ demo_settled 1 (settled demo_bill_item 120%float));
    reflexivity.
Defined.

Lemma bootstrap_transactions (e : env) (s : db) :
  transactions (bootstrap_defaults e s) = transactions s.
Proof.
  unfold bootstrap_defaults.
  destruct (user_by_name s "admin"); simpl;
    now destruct (List.length (accounts s) =? 0)%nat.
Qed.

(** X3.  A request posts at most one transaction and never touches an
    earlier one; a transaction is posted only by a settlement request of a
    logged-in caller that carries a paid amount. *)
Theorem request_posts_at_most_one (e : env) (auth : bool) (r : request) (s : db) :
  transactions (store (handle e auth r s)) = transactions s \/
  (exists trx pid paid,
      transactions (store (handle e auth r s)) = (transactions s ++ [trx])%list /\
      auth = true /\ r = PostPendenciasPay pid (Given paid)).
Proof.
  unfold handle, ensure_db. rewrite <- (bootstrap_transactions e s).
  generalize (bootstrap_defaults e s). clear s. intros s.
  destruct r; simpl; rewrite ?login_required_store, ?login_post_store;
    try (left; destruct auth; reflexivity).
  - left. destruct auth; [|reflexivity].
    now destruct (pendencias_create_cases e s f)
      as [[ex ->] | (t & d & a & k & j & c & _ & _ & ->)].
  - destruct auth; [|now left].
    unfold pendencias_pay.
    destruct (get_pending s pending_id) as [ex|[p|]]; [now left| |now left].
    destruct (String.eqb (PendingItem.status p) "PAGO"); [now left|].
    destruct paid_amount as [paid| |]; simpl; try now left.
    destruct (get_account s (PendingItem.account_id p)) as [ex|[acc|]];
      [now left| |now left].
    destruct (PrimFloat.is_nan _ || PrimFloat.is_nan _); [now left|].
    destruct (fresh_key _); [now left|].
    right. simpl. now do 3 eexists.
  - left. destruct auth; [|reflexivity]. rewrite contas_create_cases.
    destruct name, opening_balance; try easy; now destruct (int64 _ && _).
  - left. destruct auth; [|reflexivity].
    now destruct (credores_create_cases e s name ctype) as [-> | (n' & c' & _ & ->)].
Qed.

Lemma handle_extends_log (e : env) (auth : bool) (r : request) (s : db) :
  exists new, transactions (store (handle e auth r s)) = (transactions s ++ new)%list.
Proof.
  unfold handle, ensure_db. rewrite <- (bootstrap_transactions e s).
  generalize (bootstrap_defaults e s). clear s. intros s.
  assert (Hsame : forall s', transactions s' = transactions s ->
            exists new, transactions s' = (transactions s ++ new)%list).
  { intros s' ->. exists []. now rewrite app_nil_r. }
  destruct r; simpl; rewrite ?login_required_store, ?login_post_store;
    try (apply Hsame; destruct auth; reflexivity).
  - destruct auth; [|now apply Hsame]. apply Hsame.
    now destruct (pendencias_create_cases e s f)
      as [[ex ->] | (t & d & a & k & j & c & _ & _ & ->)].
  - destruct auth; [|now apply Hsame].
    destruct (pendencias_pay_cases e s pending_id paid_amount)
      as [-> | (p & acc & paid & _ & _ & _ & _ & _ & ->)]; [now apply Hsame|].
    unfold settle_store. simpl. now eexists.
  - destruct auth; [|now apply Hsame]. apply Hsame. rewrite contas_create_cases.
    destruct name, opening_balance; try easy; now destruct (int64 _ && _).
  - destruct auth; [|now apply Hsame]. apply Hsame.
    now destruct (credores_create_cases e s name ctype) as [-> | (n' & c' & _ & ->)].
Qed.

(** X4.  The transaction log only grows: after any sequence of requests
    the earlier log is a prefix of the later one, unchanged and in order. *)
Theorem log_is_append_only (calls : list call) (s : db) :
  exists later, transactions (run calls s) = (transactions s ++ later)%list.
Proof.
  revert s. induction calls as [|[[e auth] r] calls IH]; intros s.
  - exists []. simpl. now rewrite app_nil_r.
  - simpl. destruct (IH (store (handle e auth r s))) as [later ->].
    destruct (handle_extends_log e auth r s) as [new ->].
    exists (new ++ later)%list. now rewrite <- app_assoc.
Qed.

Lemma bootstrap_accounts (e : env) (s : db) :
  exists new, accounts (bootstrap_defaults e s) = (accounts s ++ new)%list.
Proof.
  unfold bootstrap_defaults.
  destruct (user_by_name s "admin"); simpl;
    destruct (List.length (accounts s) =? 0)%nat; simpl;
    solve [ exists []; now rewrite app_nil_r | now eexists ].
Qed.

(** X5.  A request never removes or rewrites an account except for the
    balance the settlement updates: unless it is a settlement request of a
    logged-in caller carrying a paid amount, the accounts present before
    are all still there, unchanged and in order. *)
Theorem only_settlement_changes_balances (e : env) (auth : bool) (r : request)
    (s : db) :
  (exists new, accounts (store (handle e auth r s)) = (accounts s ++ new)%list) \/
  (auth = true /\ exists pid paid, r = PostPendenciasPay pid (Given paid)).
Proof.
  unfold handle, ensure_db.
  destruct (bootstrap_accounts e s) as [boot Hboot].
  assert (Hsame : forall s', accounts s' = accounts (bootstrap_defaults e s) ->
                    exists new, accounts s' = (accounts s ++ new)%list).
  { intros s' ->. now exists boot. }
  destruct r; simpl; rewrite ?login_required_store, ?login_post_store;
    try (left; apply Hsame; destruct auth; reflexivity).
  - left. destruct auth; [|now apply Hsame].
    apply Hsame.
    now destruct (pendencias_create_cases e (bootstrap_defaults e s) f)
      as [[ex ->] | (t & d & a & k & j & c & _ & _ & ->)].
  - destruct auth; [|left; now apply Hsame].
    destruct paid_amount as [paid| |].
    + right. split; [reflexivity|]. now do 2 eexists.
    + left. apply Hsame. unfold pendencias_pay.
      destruct (get_pending _ pending_id) as [ex|[p|]]; try reflexivity.
      now destruct (String.eqb (PendingItem.status p) "PAGO").
    + left. apply Hsame. unfold pendencias_pay.
      destruct (get_pending _ pending_id) as [ex|[p|]]; try reflexivity.
      now destruct (String.eqb (PendingItem.status p) "PAGO").
  - left. destruct auth; [|now apply Hsame]. rewrite contas_create_cases.
    destruct name, opening_balance; try (now apply Hsame).
    destruct (int64 _ && _); [|now apply Hsame].
    simpl. rewrite Hboot, <- app_assoc. now eexists.
  - left. destruct auth; [|now apply Hsame]. apply Hsame.
    now destruct (credores_create_cases e (bootstrap_defaults e s) name ctype)
      as [-> | (n' & c' & _ & ->)].
Qed.

Lemma dispatch_account_identity (e : env) (auth : bool) (r : request) (s : db) :
  exists new,
    map account_identity (accounts (store (dispatch e auth r s))) =
    (map account_identity (accounts s) ++ new)%list.
Proof.
  assert (Hsame : forall s', accounts s' = accounts s ->
            exists new, map account_identity (accounts s') =
                        (map account_identity (accounts s) ++ new)%list).
  { intros s' ->. exists []. now rewrite app_nil_r. }
  destruct r; simpl; rewrite ?login_required_store, ?login_post_store;
    try (apply Hsame; destruct auth; reflexivity).
  - destruct auth; [|now apply Hsame]. apply Hsame.
    now destruct (pendencias_create_cases e s f)
      as [[ex ->] | (t & d & a & k & j & c & _ & _ & ->)].
  - destruct auth; [|now apply Hsame].
    destruct (pendencias_pay_cases e s pending_id paid_amount)
      as [-> | (p & acc & paid & _ & _ & _ & _ & _ & ->)]; [now apply Hsame|].
    exists []. rewrite app_nil_r. unfold settle_store. simpl.
    rewrite map_map. apply map_ext. intros a.
    now destruct (Account.id a =? Account.id acc).
  - destruct auth; [|now apply Hsame]. rewrite contas_create_cases.
    destruct name, opening_balance; try (now apply Hsame).
    destruct (int64 _ && _); [|now apply Hsame].
    simpl. rewrite map_app. now eexists.
  - destruct auth; [|now apply Hsame]. apply Hsame.
    now destruct (credores_create_cases e s name ctype) as [-> | (n' & c' & _ & ->)].
Qed.

(** X6.  Accounts are never deleted, renumbered or renamed: after any
    sequence of requests the accounts present before are still there in
    the same order with the same key, reference code and name. *)
Theorem accounts_keep_identity (calls : list call) (s : db) :
  exists new,
    map account_identity (accounts (run calls s)) =
    (map account_identity (accounts s) ++ new)%list.
Proof.
  revert s. induction calls as [|[[e auth] r] calls IH]; intros s.
  - exists []. simpl. now rewrite app_nil_r.
  - simpl. destruct (IH (store (handle e auth r s))) as [later ->].
    unfold handle, ensure_db.
    destruct (dispatch_account_identity e auth r (bootstrap_defaults e s)) as [n1 ->].
    destruct (bootstrap_accounts e s) as [n0 ->].
    rewrite map_app, <- !app_assoc. now eexists.
Qed.

(** ** Obligations and the log *)


Lemma settling_counts_one (g : PendingItem.t -> PendingItem.t)
    (l : list PendingItem.t) (p : PendingItem.t) :
  (forall q, is_settled (g q) = true) ->
  NoDup (map PendingItem.id l) -> In p l -> is_settled p = false ->
  List.length (filter is_settled
                 (map (fun q => if PendingItem.id q =? PendingItem.id p
                                then g q else q) l)) =
  S (List.length (filter is_settled l)).
Proof.
  intros Hg Hnd Hin Hp. induction l as [|q l IH]; [contradiction|].
  inversion Hnd as [|? ? Hq Hnd']; subst. cbn [map filter].
  destruct Hin as [-> | Hin].
  - rewrite Z.eqb_refl, Hg, Hp. simpl. f_equal. f_equal. f_equal.
    rewrite <- (map_id l) at 2. apply map_ext_in. intros q Hql.
    destruct (PendingItem.id q =? PendingItem.id p) eqn:E; [|reflexivity].
    exfalso. apply Hq. apply Z.eqb_eq in E. rewrite <- E. now apply in_map.
  - destruct (PendingItem.id q =? PendingItem.id p) eqn:E.
    + exfalso. apply Hq. apply Z.eqb_eq in E. rewrite E. now apply in_map.
    + destruct (is_settled q); simpl; now rewrite IH.
Qed.

Lemma postings_match_dispatch (e : env) (auth : bool) (r : request) (s : db) :
  keys_ok s ->
  List.length (transactions s) = List.length (filter is_settled (pending_items s)) ->
  List.length (transactions (store (dispatch e auth r s))) =
  List.length (filter is_settled (pending_items (store (dispatch e auth r s)))).
Proof.
  intros Hk H.
  destruct r; simpl; rewrite ?login_required_store, ?login_post_store;
    try (destruct auth; simpl; exact H).
  - destruct auth; [|exact H].
    destruct (pendencias_create_cases e s f) as [[ex ->] | (t & d & a & k & j & c & _ & _ & ->)];
      [exact H|].
    simpl. rewrite filter_app. simpl. now rewrite app_nil_r.
  - destruct auth; [|exact H].
    destruct (pendencias_pay_cases e s pending_id paid_amount)
      as [-> | (p & acc & paid & Hp & Hopen & _ & _ & _ & ->)]; [exact H|].
    unfold settle_store. simpl. rewrite length_app. simpl.
    rewrite (settling_counts_one
               (fun q => PendingItem.mk (PendingItem.id q) (PendingItem.uid q)
                           (PendingItem.kind q) "PAGO" (PendingItem.title q)
                           (PendingItem.due_date q) (PendingItem.amount q)
                           (PendingItem.account_id q) (PendingItem.creditor_id q)
                           (nullable paid)
                           (nullable (PrimFloat.sub paid (PendingItem.amount p))))).
    + lia.
    + reflexivity.
    + apply keys_in_sequence_NoDup. now destruct Hk.
    + now apply (session_get_row PendingItem.id) in Hp.
    + unfold is_settled. now apply is_open_status.
  - destruct auth; [|exact H]. rewrite contas_create_cases.
    destruct name, opening_balance; try easy; now destruct (int64 _ && _).
  - destruct auth; [|exact H].
    now destruct (credores_create_cases e s name ctype) as [-> | (n' & c' & _ & ->)].
Qed.

(** X7.  In every reachable state there are exactly as many transactions
    as settled obligations: each settlement posted one transaction, and
    nothing else posts or settles. *)
Theorem one_posting_per_settlement (og : list float) (s : db) :
  reachable og s ->
  List.length (transactions s) = List.length (filter is_settled (pending_items s)).
Proof.
  induction 1 as [|og s e auth r Hreach IH]; [reflexivity|].
  unfold handle, ensure_db. apply postings_match_dispatch.
  - apply keys_bootstrap. now apply (reachable_keys og).
  - now rewrite bootstrap_transactions, obligations_bootstrap.
Qed.

Lemma one_posting_per_settlement_witness :
  List.length (transactions demo_settled) =
  List.length (filter is_settled (pending_items demo_settled)).
Proof.
  apply (one_posting_per_settlement _ demo_settled
           (reach_request _ _ demo_env true (PostPendenciasPay 1 (Given 120%float))
              (reach_request _ _ demo_env true register_donation
                 (reach_request _ _ demo_env true register_bill
                    (reach_request _ _ demo_env true open_savings reach_empty))))).
Defined.




(** X9.  In every reachable state each transaction belongs to an account
    of the store: the lookup of its [account_id] succeeds.  (Obligations
    give no such guarantee, their account reference is never checked.) *)
Theorem postings_have_an_account (og : list float) (s : db) (t : Transaction.t) :
  reachable og s ->
  In t (transactions s) ->
  exists acc, get_account s (Transaction.account_id t) = ok (Some acc).
Proof.
  intros Hreach Hin. pose proof (reachable_keys og s Hreach) as [_ Hk _ _ _].
  apply reachable_ledger in Hreach.
  destruct Hreach as [Hnd Hown _]. rewrite Forall_forall in Hown.
  specialize (Hown t Hin). apply in_map_iff in Hown.
  destruct Hown as (acc & Hid & Hacc). exists acc. rewrite <- Hid.
  now apply (session_get_present Account.id).
Qed.

Lemma postings_have_an_account_witness :
  exists acc, get_account demo_settled 2 = ok (Some acc).
Proof.
  apply (postings_have_an_account _ demo_settled
           (Transaction.mk 1 "TRX-FEDCBA9876" 2 "[PAGAR] Luz" (-120)%float "2026-01-15")
           (reach_request _ _ demo_env true (PostPendenciasPay 1 (Given 120%float))
              (reach_request _ _ demo_env true register_donation
                 (reach_request _ _ demo_env true register_bill
                    (reach_request _ _ demo_env true open_savings reach_empty))))).
  left. reflexivity.
Defined.

Lemma open_and_settled (l : list PendingItem.t) :
  (List.length (filter is_open l) + List.length (filter is_settled l))%nat =
  List.length l.
Proof.
  induction l as [|p l IH]; [reflexivity|]. simpl.
  unfold is_open at 1, is_settled at 1.
  destruct (String.eqb (PendingItem.status p) "PAGO"); simpl; lia.
Qed.

(** X10.  In a reachable state a settlement of an open obligation that
    succeeds (the view answers with the redirect) lowers the number of
    open obligations the dashboard counts by exactly one. *)
Theorem settlement_closes_one (og : list float) (e : env) (s : db) (pid : Z)
    (p : PendingItem.t) (f : field float) :
  reachable og s ->
  get_pending s pid = ok (Some p) ->
  is_open p = true ->
  reply (pendencias_pay e s pid f) = Redirect "pendencias" ->
  S (List.length (filter is_open
                    (pending_items (store (pendencias_pay e s pid f))))) =
  List.length (filter is_open (pending_items s)).
Proof.
  intros Hreach Hp Hopen Hok.
  destruct (pendencias_pay_redirects e s pid p f Hp Hopen Hok)
    as (acc & paid & _ & _ & _ & ->).
  pose proof (open_and_settled (pending_items s)) as H0.
  pose proof (open_and_settled
                (pending_items (settle_store e s p acc paid))) as H1.
  cbn [store unchanged]. unfold settle_store in *. simpl in *.
  rewrite length_map in H1.
  rewrite (settling_counts_one
             (fun q => PendingItem.mk (PendingItem.id q) (PendingItem.uid q)
                         (PendingItem.kind q) "PAGO" (PendingItem.title q)
                         (PendingItem.due_date q) (PendingItem.amount q)
                         (PendingItem.account_id q) (PendingItem.creditor_id q)
                         (nullable paid)
                         (nullable (PrimFloat.sub paid (PendingItem.amount p))))) in H1.
  - lia.
  - reflexivity.
  - apply keys_in_sequence_NoDup. apply reachable_keys in Hreach. now destruct Hreach.
  - now apply (session_get_row PendingItem.id) in Hp.
  - unfold is_settled. now apply is_open_status.
Qed.

Lemma settlement_closes_one_witness :
  S (List.length (filter is_open
                    (pending_items
                       (store (pendencias_pay demo_env demo_pending 1
                                 (Given 120%float)))))) =
  List.length (filter is_open (pending_items demo_pending)).
Proof.
  apply (settlement_closes_one _ demo_env demo_pending 1
           demo_bill_item (Given 120%float)
           (reach_request _ _ demo_env true register_donation
              (reach_request _ _ demo_env true register_bill
                 (reach_request _ _ demo_env true open_savings reach_empty))));
    reflexivity.
Defined.

(** ** The dashboard's recent transactions *)

Lemma insert_desc_smallest (t : Transaction.t) (l : list Transaction.t) :
  Forall (fun x => Transaction.id t < Transaction.id x) l ->
  insert_desc t l = (l ++ [t])%list.
Proof.
  induction 1 as [|x l Hx _ IH]; [reflexivity|]. simpl.
  destruct (Transaction.id x <=? Transaction.id t) eqn:E; [apply Z.leb_le in E; lia|].
  now rewrite IH.
Qed.

Lemma order_desc_of_sequence (l : list Transaction.t) (a : nat) :
  map Transaction.id l = map Z.of_nat (seq a (List.length l)) ->
  order_by_id_desc l = rev l.
Proof.
  revert a. induction l as [|t l IH]; intros a H; [reflexivity|].
  simpl in H. injection H as Ht Hl. simpl.
  rewrite (IH (S a) Hl). apply insert_desc_smallest.
  apply Forall_forall. intros x Hx. apply in_rev in Hx.
  apply (in_map Transaction.id) in Hx. rewrite Hl in Hx.
  apply in_map_iff in Hx. destruct Hx as (n & <- & Hn).
  apply in_seq in Hn. lia.
Qed.

(** X11.  In every reachable state the dashboard lists the transactions
    posted last, newest first, and at most ten of them. *)
Theorem dashboard_lists_latest (og : list float) (s : db) :
  reachable og s ->
  exists k,
    reply (dashboard s) = Dashboard k (firstn 10 (rev (transactions s))) /\
    (List.length (firstn 10 (rev (transactions s))) <= 10)%nat.
Proof.
  intros Hreach. apply reachable_keys in Hreach. destruct Hreach as [_ _ _ Ht _].
  eexists. split; [|apply firstn_le_length].
  unfold dashboard, unchanged. cbn [reply].
  rewrite (order_desc_of_sequence (transactions s) 1); [reflexivity|].
  unfold keys_in_sequence in Ht. now rewrite length_map in Ht.
Qed.

Lemma dashboard_lists_latest_witness :
  exists k,
    reply (dashboard demo_settled) =
      Dashboard k (firstn 10 (rev (transactions demo_settled))) /\
    (List.length (firstn 10 (rev (transactions demo_settled))) <= 10)%nat.
Proof.
  apply (dashboard_lists_latest _ demo_settled
           (reach_request _ _ demo_env true (PostPendenciasPay 1 (Given 120%float))
              (reach_request _ _ demo_env true register_donation
                 (reach_request _ _ demo_env true register_bill
                    (reach_request _ _ demo_env true open_savings reach_empty))))).
Defined.

(** ** Login *)

(** X12.  A caller who is not logged in changes nothing beyond what the
    bootstrap does, whatever is requested; every view but the login
    view answers with the redirect to the login view. *)
Theorem anonymous_requests_do_nothing (e : env) (r : request) (s : db) :
  store (handle e false r s) = bootstrap_defaults e s /\
  match r with
  | GetLogin => reply (handle e false r s) = Page "login.html"
  | PostLogin _ _ => True
  | _ => reply (handle e false r s) = Redirect "login"
  end.
Proof.
  unfold handle, ensure_db.
  destruct r; try (split; reflexivity).
  split; [apply (login_post_store e false) | exact I].
Qed.

(** X13.  The login view never writes.  For a caller not yet logged in who
    submits both fields, it answers with the redirect to the dashboard
    exactly when a user of the submitted name, stripped by [str.strip],
    exists and the password check accepts that user's hash;
    otherwise it flashes a message and redirects to the login view. *)
Theorem login_accepts_known_users (e : env) (s : db) (username password : string) :
  let r := login_post e false s (Given username) (Given password) in
  store r = s /\
  (reply r = Redirect "dashboard" <->
   exists user,
     user_by_name s (str_strip e username) = Some user /\
     check_password_hash e (User.password_hash user) password = true) /\
  (reply r = Redirect "dashboard" \/
   (reply r = Redirect "login" /\ flashed r <> [])).
Proof.
  intros r. subst r. split; [apply login_post_store|].
  unfold login_post. simpl.
  destruct (user_by_name s (str_strip e username)) as [user|] eqn:Hu.
  - destruct (check_password_hash e (User.password_hash user) password) eqn:Hc; simpl.
    + split; [|now left]. split; [|reflexivity]. intros _. now exists user.
    + split; [|right; split; [reflexivity|discriminate]].
      split; [discriminate|]. intros (u' & Hu' & Hc'). congruence.
  - simpl. split; [|right; split; [reflexivity|discriminate]].
    split; [discriminate|]. intros (u' & Hu' & _). discriminate.
Qed.

Lemma reachable_users (og : list float) (s : db) :
  reachable og s ->
  s = empty_db \/ exists hash, users s = [User.mk 1 "admin" hash].
Proof.
  induction 1 as [|og s e auth r _ IH]; [now left|]. right.
  unfold handle, ensure_db. rewrite dispatch_users.
  destruct IH as [-> | [hash IH]]; [now eexists|].
  exists hash. unfold bootstrap_defaults, user_by_name. rewrite IH. simpl.
  now destruct (List.length (accounts s) =? 0)%nat.
Qed.

(** X14.  No view creates a user: in every reachable state other than the
    empty database the only user is the admin the bootstrap created, with
    key 1, so a login under any other name is refused. *)
Theorem admin_is_the_only_user (og : list float) (s : db) :
  reachable og s ->
  s <> empty_db ->
  (exists hash, users s = [User.mk 1 "admin" hash]) /\
  (forall e username password,
      str_strip e username <> "admin" ->
      reply (login_post e false s (Given username) (Given password)) =
      Redirect "login").
Proof.
  intros Hreach Hne.
  assert (Hu : exists hash, users s = [User.mk 1 "admin" hash]).
  { now destruct (reachable_users og s Hreach). }
  split; [exact Hu|].
  destruct Hu as [hash Hu]. intros e username password Hname.
  assert (Hnone : user_by_name s (str_strip e username) = None).
  { unfold user_by_name. rewrite Hu. cbn [find User.username].
    now destruct (String.eqb_spec "admin" (str_strip e username)) as [E|E]; [congruence|]. }
  unfold login_post. cbn [required bind ok]. now rewrite Hnone.
Qed.

Lemma login_accepts_known_users_witness :
  reply (login_post demo_env false demo_settled (Given " admin ") (Given "admin123")) =
  Redirect "dashboard".
Proof.
  apply (proj2 (proj1 (proj2
           (login_accepts_known_users demo_env demo_settled " admin " "admin123")))).
  eexists. split; reflexivity.
Defined.

Lemma admin_is_the_only_user_witness :
  (exists hash, users demo_settled = [User.mk 1 "admin" hash]) /\
  (forall e username password,
      str_strip e username <> "admin" ->
      reply (login_post e false demo_settled (Given username) (Given password)) =
      Redirect "login").
Proof.
  apply (admin_is_the_only_user _ demo_settled
           (reach_request _ _ demo_env true (PostPendenciasPay 1 (Given 120%float))
              (reach_request _ _ demo_env true register_donation
                 (reach_request _ _ demo_env true register_bill
                    (reach_request _ _ demo_env true open_savings reach_empty))))).
  intros H. apply (f_equal users) in H. discriminate H.
Defined.

(** ** Creating rows *)

Lemma find_app_missing {A : Type} (f : A -> bool) (l l' : list A) :
  find f l = None -> find f (l ++ l') = find f l'.
Proof.
  induction l as [|y l IH]; simpl; [reflexivity|].
  now destruct (f y).
Qed.

Lemma next_id_not_found {A : Type} (key : A -> Z) (l : list A) :
  find (fun y => key y =? next_id (map key l)) l = None.
Proof.
  destruct (find _ l) as [x|] eqn:E; [|reflexivity].
  apply find_key_some in E. destruct E as [Hin Hk].
  apply (next_id_above key) in Hin. lia.
Qed.

Lemma session_get_new {A : Type} (key : A -> Z) (rows : list A) (x : A) :
  key x = next_id (map key rows) ->
  int64 (next_id (map key rows)) = true ->
  session_get key rows (next_id (map key rows)) = ok None /\
  session_get key (rows ++ [x]) (next_id (map key rows)) = ok (Some x).
Proof.
  intros Hx Hkey. rewrite !(session_get_bound _ _ _ Hkey).
  rewrite find_app_missing by apply next_id_not_found.
  rewrite next_id_not_found. simpl. now rewrite Hx, Z.eqb_refl.
Qed.

Lemma pendencias_create_stores (e : env) (s : db) (title due_date : string)
    (amount : float) (kind : string) (account_id : Z) (creditor_id : option Z) :
  int64 account_id = true ->
  match creditor_id with Some c => int64 c | None => true end = true ->
  PrimFloat.is_nan amount = false ->
  int64 (next_id (map PendingItem.id (pending_items s))) = true ->
  pendencias_create e s
    (mkform (Given title) (Given due_date) (Given amount) (Given kind)
            (Given account_id)
            (match creditor_id with Some c => Given c | None => Missing end)) =
  unchanged (Redirect "pendencias")
    (add_pending s (uuid_view e) (str_strip e title) due_date amount kind
       account_id creditor_id).
Proof.
  intros Hi Hc Hnan Hkey. unfold pendencias_create, fresh_key.
  destruct creditor_id as [c|]; simpl; now rewrite Hi, ?Hc, Hkey, Hnan.
Qed.

(** X15.  An obligation created from a complete form, with integers that
    fit 64 bits, an amount that is not NaN and a key left in the table, is
    found under the key it received, open, with no payment recorded and
    with the submitted kind, amount and account reference exactly as
    given; every obligation found before is still found, unchanged. *)
Theorem created_obligation_is_found (e : env) (s : db) (title due_date : string)
    (amount : float) (kind : string) (account_id : Z) (creditor_id : option Z) :
  int64 account_id = true ->
  match creditor_id with Some c => int64 c | None => true end = true ->
  PrimFloat.is_nan amount = false ->
  int64 (next_id (map PendingItem.id (pending_items s))) = true ->
  let f := mkform (Given title) (Given due_date) (Given amount) (Given kind)
                  (Given account_id)
                  (match creditor_id with Some c => Given c | None => Missing end) in
  let s' := store (pendencias_create e s f) in
  let key := next_id (map PendingItem.id (pending_items s)) in
  reply (pendencias_create e s f) = Redirect "pendencias" /\
  get_pending s key = ok None /\
  get_pending s' key =
    ok (Some (PendingItem.mk key (gen_uid "PEN" (uuid_view e)) kind "ABERTO"
                (str_strip e title) due_date amount account_id creditor_id
                None None)) /\
  (forall i p, get_pending s i = ok (Some p) -> get_pending s' i = ok (Some p)).
Proof.
  intros Hi Hc Hnan Hkey f s' key. subst f s' key.
  rewrite (pendencias_create_stores e s title due_date amount kind account_id
             creditor_id Hi Hc Hnan Hkey).
  cbn [reply store unchanged]. split; [reflexivity|].
  unfold get_pending, add_pending. cbn [pending_items].
  split; [|split].
  - now apply (session_get_new PendingItem.id (pending_items s)
                 (PendingItem.mk (next_id (map PendingItem.id (pending_items s)))
                    (gen_uid "PEN" (uuid_view e)) kind "ABERTO" (str_strip e title)
                    due_date amount account_id creditor_id None None)).
  - now apply (session_get_new PendingItem.id).
  - intros i p. apply session_get_app.
Qed.

Lemma created_obligation_is_found_witness :
  let f := mkform (Given "Agua") (Given "2026-04-01") (Given 80%float)
                  (Given "PAGAR") (Given 2) Missing in
  let s' := store (pendencias_create demo_env demo_pending f) in
  let key := next_id (map PendingItem.id (pending_items demo_pending)) in
  reply (pendencias_create demo_env demo_pending f) = Redirect "pendencias" /\
  get_pending demo_pending key = ok None /\
  get_pending s' key =
    ok (Some (PendingItem.mk key (gen_uid "PEN" (uuid_view demo_env)) "PAGAR" "ABERTO"
                (str_strip demo_env "Agua") "2026-04-01" 80%float 2 None
                None None)) /\
  (forall i p, get_pending demo_pending i = ok (Some p) ->
               get_pending s' i = ok (Some p)).
Proof.
  apply (created_obligation_is_found demo_env demo_pending "Agua" "2026-04-01"
           80%float "PAGAR" 2 None); reflexivity.
Defined.

(** X16.  An account created from a complete form, with an opening balance
    that is not NaN and a key left in the table, is found under the key it
    received, with the stripped name and the opening balance as the
    balance; the accounts found before are still found, unchanged, and no
    transaction is posted for the opening balance. *)
Theorem created_account_is_found (e : env) (s : db) (name : string)
    (opening_balance : float) :
  PrimFloat.is_nan opening_balance = false ->
  int64 (next_id (map Account.id (accounts s))) = true ->
  let r := contas_create e s (Given name) (Given opening_balance) in
  let s' := store r in
  let key := next_id (map Account.id (accounts s)) in
  reply r = Redirect "contas" /\
  get_account s key = ok None /\
  get_account s' key =
    ok (Some (Account.mk key (gen_uid "ACC" (uuid_view e)) (str_strip e name)
                opening_balance)) /\
  (forall i a, get_account s i = ok (Some a) -> get_account s' i = ok (Some a)) /\
  transactions s' = transactions s.
Proof.
  intros Hnan Hkey r s' key. subst r s' key.
  unfold contas_create, fresh_key. cbn [required bind ok]. rewrite Hkey, Hnan.
  cbn [reply store unchanged]. split; [reflexivity|].
  unfold get_account, add_account. cbn [accounts transactions].
  split; [|split; [|split]].
  - now apply (session_get_new Account.id (accounts s)
                 (Account.mk (next_id (map Account.id (accounts s)))
                    (gen_uid "ACC" (uuid_view e)) (str_strip e name) opening_balance)).
  - now apply (session_get_new Account.id).
  - intros i a. apply session_get_app.
  - reflexivity.
Qed.

Lemma created_account_is_found_witness :
  let r := contas_create demo_env demo_pending (Given "Reserva") (Given 10%float) in
  let s' := store r in
  let key := next_id (map Account.id (accounts demo_pending)) in
  reply r = Redirect "contas" /\
  get_account demo_pending key = ok None /\
  get_account s' key =
    ok (Some (Account.mk key (gen_uid "ACC" (uuid_view demo_env))
                (str_strip demo_env "Reserva") 10%float)) /\
  (forall i a, get_account demo_pending i = ok (Some a) ->
               get_account s' i = ok (Some a)) /\
  transactions s' = transactions demo_pending.
Proof.
  apply (created_account_is_found demo_env demo_pending "Reserva" 10%float);
    reflexivity.
Defined.



(** ** Settlements that fail *)



(** ** The signed amount *)

Lemma float_abs_opp (x : float) : PrimFloat.abs (PrimFloat.opp x) = PrimFloat.abs x.
Proof.
  apply Prim2SF_inj. rewrite !abs_spec, opp_spec. now destruct (Prim2SF x).
Qed.

Lemma float_abs_abs (x : float) : PrimFloat.abs (PrimFloat.abs x) = PrimFloat.abs x.
Proof.
  apply Prim2SF_inj. rewrite !abs_spec. now destruct (Prim2SF x).
Qed.

(** X19.  The posting ignores the sign of the paid amount: a negative paid
    amount posts what its absolute value posts, and the magnitude of the
    posted amount is the magnitude of the paid amount for every kind. *)
Theorem posting_ignores_sign_of_payment (kind : string) (paid : float) :
  trx_amount kind (PrimFloat.opp paid) = trx_amount kind paid /\
  PrimFloat.abs (trx_amount kind paid) = PrimFloat.abs paid.
Proof.
  unfold trx_amount.
  destruct (String.eqb kind "PAGAR" || String.eqb kind "EMPRESTIMO").
  - now rewrite !float_abs_opp, float_abs_abs.
  - now rewrite float_abs_opp, float_abs_abs.
Qed.

(** X20.  The direction of a posting depends on the kind alone: for PAGAR
    and EMPRESTIMO the posted amount is never above zero, for every other
    kind it is never below zero, whatever the paid amount. *)
Theorem posting_direction (kind : string) (paid : float) :
  (kind = "PAGAR" \/ kind = "EMPRESTIMO" ->
   PrimFloat.ltb 0%float (trx_amount kind paid) = false) /\
  (kind <> "PAGAR" -> kind <> "EMPRESTIMO" ->
   PrimFloat.ltb (trx_amount kind paid) 0%float = false).
Proof.
  split.
  - intros H. rewrite (trx_amount_debit kind paid H).
    rewrite ltb_spec, opp_spec, abs_spec. now destruct (Prim2SF paid).
  - intros H1 H2. rewrite (trx_amount_credit kind paid H1 H2).
    rewrite ltb_spec, abs_spec. now destruct (Prim2SF paid).
Qed.

Lemma posting_direction_witness :
  PrimFloat.ltb 0%float (trx_amount "EMPRESTIMO" (-75)%float) = false.
Proof.
  apply (proj1 (posting_direction "EMPRESTIMO" (-75)%float)). now right.
Defined.

(** ** Reference codes *)

Lemma length_upper (s : string) : String.length (upper s) = String.length s.
Proof. induction s as [|c s IH]; simpl; [reflexivity | now rewrite IH]. Qed.

Lemma length_append (s1 s2 : string) :
  String.length (s1 ++ s2) = (String.length s1 + String.length s2)%nat.
Proof. induction s1 as [|c s1 IH]; simpl; [reflexivity | now rewrite IH]. Qed.

Lemma length_substring_0 (n : nat) (s : string) :
  String.length (substring 0 n s) = Nat.min n (String.length s).
Proof.
  revert s. induction n as [|n IH]; intros [|c s]; simpl; try reflexivity.
  now rewrite IH.
Qed.

Lemma upper_ascii_idempotent (c : ascii) :
  upper_ascii (upper_ascii c) = upper_ascii c.
Proof. destruct c as [[] [] [] [] [] [] [] []]; reflexivity. Qed.

Lemma upper_idempotent (s : string) : upper (upper s) = upper s.
Proof.
  induction s as [|c s IH]; simpl; [reflexivity|].
  now rewrite upper_ascii_idempotent, IH.
Qed.

(** X21.  A reference code is the prefix, a dash and ten characters without
    lower-case letters, provided the drawn hexadecimal text has at least
    ten characters: for the three-letter prefixes the code has 14
    characters and fits the 20 of its column. *)
Theorem gen_uid_shape (prefix hex : string) :
  (10 <= String.length hex)%nat ->
  exists code,
    gen_uid prefix hex = prefix ++ "-" ++ code /\
    String.length code = 10%nat /\
    upper code = code /\
    String.length (gen_uid prefix hex) = (String.length prefix + 11)%nat.
Proof.
  intros Hlen. exists (upper (substring 0 10 hex)).
  assert (Hcode : String.length (upper (substring 0 10 hex)) = 10%nat).
  { rewrite length_upper, length_substring_0. lia. }
  repeat split.
  - exact Hcode.
  - apply upper_idempotent.
  - unfold gen_uid. rewrite !length_append, Hcode. simpl. lia.
Qed.

Lemma gen_uid_shape_witness :
  exists code,
    gen_uid "PEN" "fedcba9876543210fedcba9876543210" = "PEN" ++ "-" ++ code /\
    String.length code = 10%nat /\
    upper code = code /\
    String.length (gen_uid "PEN" "fedcba9876543210fedcba9876543210") =
      (String.length "PEN" + 11)%nat.
Proof.
  apply (gen_uid_shape "PEN" "fedcba9876543210fedcba9876543210").
  simpl. lia.
Defined.

(** ** Creditors *)

(** X22.  Creating a creditor needs both form fields and checks neither:
    with both present, and a key left in the table, it appends exactly one
    creditor with the name stripped by [str.strip] and the type as
    submitted, and the dashboard counts one creditor more; with one absent
    it raises and commits nothing.  In no case does it touch users,
    accounts, transactions or obligations. *)
Theorem creditor_creation (e : env) (s : db) (name ctype : field string) :
  let r := credores_create e s name ctype in
  (forall n c,
      name = Given n -> ctype = Given c ->
      int64 (next_id (map Creditor.id (creditors s))) = true ->
      reply r = Redirect "credores" /\
      creditors (store r) =
        (creditors s ++
           [Creditor.mk (next_id (map Creditor.id (creditors s)))
              (gen_uid "CRD" (uuid_view e)) (str_strip e n) c])%list /\
      exists k k' u u',
        reply (dashboard s) = Dashboard k u /\
        reply (dashboard (store r)) = Dashboard k' u' /\
        credores k' = S (credores k)) /\
  ((forall n, name <> Given n) \/ (forall c, ctype <> Given c) ->
   (exists ex, reply r = Raised ex) /\ store r = s) /\
  users (store r) = users s /\
  accounts (store r) = accounts s /\
  transactions (store r) = transactions s /\
  pending_items (store r) = pending_items s.
Proof.
  intros r. subst r. split; [|split].
  - intros n c -> -> Hkey. unfold credores_create, fresh_key.
    cbn [required bind ok]. rewrite Hkey. simpl. repeat split.
    do 4 eexists. repeat split. simpl. rewrite length_app. simpl. lia.
  - intros [H | H].
    + destruct name as [n| |]; [now specialize (H n)| |]; simpl; eauto.
    + destruct ctype as [c| |]; [now specialize (H c)| |];
        destruct name; simpl; eauto.
  - destruct (credores_create_cases e s name ctype) as [-> | (n' & c' & _ & ->)];
      repeat split.
Qed.

Lemma creditor_creation_witness :
  reply (credores_create demo_env demo_settled (Given " Enel ") (Given "EMPRESA")) =
    Redirect "credores" /\
  creditors (store (credores_create demo_env demo_settled
                      (Given " Enel ") (Given "EMPRESA"))) =
    (creditors demo_settled ++
       [Creditor.mk (next_id (map Creditor.id (creditors demo_settled)))
          (gen_uid "CRD" (uuid_view demo_env)) (str_strip demo_env " Enel ")
          "EMPRESA"])%list /\
  exists k k' u u',
    reply (dashboard demo_settled) = Dashboard k u /\
    reply (dashboard (store (credores_create demo_env demo_settled
                               (Given " Enel ") (Given "EMPRESA")))) =
      Dashboard k' u' /\
    credores k' = S (credores k).
Proof.
  apply (proj1 (creditor_creation demo_env demo_settled
                  (Given " Enel ") (Given "EMPRESA")) " Enel " "EMPRESA");
    reflexivity.
Defined.
